(** * prepare_data.py: slope in degrees and slope classes of a DEM

    A shallow embedding of [compute_slope_and_classes] (src/prepare_data.py,
    lines 29-132): mask of no-data cells, [np.gradient], slope in degrees,
    [np.digitize] into five classes; then what the run reports (counts,
    percentages, slope range), and [main] (lines 135-174) with the files it
    reads and writes, each of which may fail.  Printing is left out.

    The kernel is written once, over an interface of the float operations the
    code uses.  It is read in two ways:
    - [Exact]: a float is the extended real it denotes (a real number, plus or
      minus infinity, or NaN) and every operation is exact (no rounding, no
      overflow);
    - [Binary32]: IEEE 754 single precision as the Standard Library specifies
      it ([SpecFloat], precision 24, emax 128), the arctangent being the one
      operation that is not an IEEE basic operation and is taken as given.
    The code computes in single precision (lines 42 and 75); a property
    proved over [Exact] says so. *)

From Stdlib Require Import List Bool Arith ZArith Lia.
From Stdlib Require Import Reals Ratan Lra.
From Stdlib Require Import Floats.SpecFloat.
Import ListNotations.

Set Implicit Arguments.

(** ** Float operations used by the code *)

Class FloatOps (F : Type) : Type := {
  of_Z : Z -> F;              (* a Python number literal: 2., 5, 15, 30, 45 *)
  fnan : F;                   (* np.nan *)
  fabs : F -> F;              (* abs *)
  fsub : F -> F -> F;         (* - *)
  fadd : F -> F -> F;         (* + *)
  fmul : F -> F -> F;         (* * *)
  fdiv : F -> F -> F;         (* / *)
  fsqrt : F -> F;             (* np.sqrt *)
  farctan : F -> F;           (* np.arctan *)
  fdegrees : F -> F;          (* np.degrees *)
  feqb : F -> F -> bool;      (* == *)
  fltb : F -> F -> bool;      (* < *)
  fisnan : F -> bool          (* np.isnan *)
}.

(** ** 2-D arrays *)

(** A 2-D array is the list of its rows. *)
Definition grid (A : Type) : Type := list (list A).

Definition nrows {A} (g : grid A) : nat := length g.
Definition ncols {A} (g : grid A) : nat := length (hd [] g).

(** [g[r, c]]; [d] is returned out of range, where numpy raises. *)
Definition cell {A} (d : A) (g : grid A) (r c : nat) : A :=
  nth c (nth r g []) d.

(** The cell [(r, c)] of an array that the code produced, when there is one. *)
Definition lookup {A} (g : grid A) (r c : nat) : option A :=
  match nth_error g r with
  | Some row => nth_error row c
  | None => None
  end.

(** The [nr] x [nc] array whose cell [(r, c)] is [f r c]. *)
Definition tabulate {A} (nr nc : nat) (f : nat -> nat -> A) : grid A :=
  map (fun r => map (fun c => f r c) (seq 0 nc)) (seq 0 nr).

(** Bounds on the shape of a literal grid. *)
Ltac shape := unfold nrows, ncols; simpl; lia.

(** What the code raises: the [ValueError] of [np.gradient], and the error
    of a [rasterio.open], a read or a write that fails. *)
Inductive exn : Type := ValueError | RasterioIOError.

Inductive result (A : Type) : Type :=
| Ok (a : A)
| Raise (e : exn).
Arguments Raise {A} e.

(** What [rasterio.open(dem_path)] hands over: band 1, the profile's no-data
    value and the two pixel sizes of the affine transform. *)
Record Raster (F : Type) : Type := {
  band : grid F;
  nodata : option F;
  transform_a : F;
  transform_e : F
}.

(** The same band and no-data value under other pixel sizes. *)
Definition with_pixel_size {F} (src : Raster F) (a e : F) : Raster F := {|
  band := band src;
  nodata := nodata src;
  transform_a := a;
  transform_e := e
|}.

Section Kernel.
Context {F : Type} {ops : FloatOps F}.

(** An element-wise numpy operation: same shape, cell by cell. *)
Definition elementwise {A B} (d : A) (op : A -> B) (g : grid A) : grid B :=
  tabulate (nrows g) (ncols g) (fun r c => op (cell d g r c)).

Definition elementwise2 {A B X} (da : A) (db : B) (op : A -> B -> X)
           (g : grid A) (h : grid B) : grid X :=
  tabulate (nrows g) (ncols g) (fun r c => op (cell da g r c) (cell db h r c)).

(** [g[mask] = v]. *)
Definition set_where {A} (d : A) (mask : grid bool) (v : A) (g : grid A) : grid A :=
  elementwise2 d false (fun x m => if m then v else x) g mask.

(** Lines 51-56: [dem == nodata] when the profile has a no-data value,
    [np.isnan(dem)] otherwise. *)
Definition nodata_mask (src : Raster F) : grid bool :=
  match nodata src with
  | Some nd => elementwise fnan (fun x => feqb x nd) (band src)
  | None => elementwise fnan fisnan (band src)
  end.

(** Lines 64-65. *)
Definition xres (src : Raster F) : F := fabs (transform_a src).
Definition yres (src : Raster F) : F := fabs (transform_e src).

(** [np.gradient] along one axis of length [n] with uniform spacing [dx]
    and [edge_order=1]; [at_ i] is the i-th sample along the axis:
    [out[0] = (f[1] - f[0]) / dx], [out[-1] = (f[-1] - f[-2]) / dx],
    [out[1:-1] = (f[2:] - f[:-2]) / (2. * dx)]. *)
Definition diff1 (n : nat) (dx : F) (at_ : nat -> F) (i : nat) : F :=
  if i =? 0 then fdiv (fsub (at_ 1) (at_ 0)) dx
  else if i =? n - 1 then fdiv (fsub (at_ (n - 1)) (at_ (n - 2))) dx
  else fdiv (fsub (at_ (i + 1)) (at_ (i - 1))) (fmul (of_Z 2) dx).

(** [np.gradient(f, dy, dx)] of a 2-D array: the pair (along axis 0, along
    axis 1), each of the shape of [f]; numpy raises [ValueError] when an
    axis has fewer than [edge_order + 1 = 2] elements. *)
Definition gradient_axis0 (f : grid F) (dy : F) (r c : nat) : F :=
  diff1 (nrows f) dy (fun i => cell fnan f i c) r.
Definition gradient_axis1 (f : grid F) (dx : F) (r c : nat) : F :=
  diff1 (ncols f) dx (fun j => cell fnan f r j) c.

Definition gradient (f : grid F) (dy dx : F) : result (grid F * grid F) :=
  let nr := nrows f in
  let nc := ncols f in
  if (nr <? 2) || (nc <? 2) then Raise ValueError
  else Ok (tabulate nr nc (gradient_axis0 f dy),
           tabulate nr nc (gradient_axis1 f dx)).

(** Line 97. *)
Definition bins : list F := [of_Z 5; of_Z 15; of_Z 30; of_Z 45].

(** [np.digitize(x, bins, right=False)] for increasing bins: the index of
    the first bin strictly greater than [x], [len(bins)] when there is none
    (so also for NaN, which compares false with every bin). *)
Fixpoint digitize (x : F) (bs : list F) : nat :=
  match bs with
  | [] => 0
  | b :: bs' => if fltb x b then 0 else S (digitize x bs')
  end.

(** [.astype("uint8")] of a bin index. *)
Definition uint8 (n : nat) : nat := n mod 256.

(** Lines 74-75, before the mask is applied. *)
Definition slope_of_gradient (gx gy : F) : F :=
  fdegrees (farctan (fsqrt (fadd (fmul gx gx) (fmul gy gy)))).

(** The slope of cell [(r, c)] before the mask is applied (lines 64-75). *)
Definition raw_slope (src : Raster F) (r c : nat) : F :=
  slope_of_gradient (gradient_axis1 (band src) (xres src) r c)
                    (gradient_axis0 (band src) (yres src) r c).

(** Lines 50-115: the slope raster and the class raster that are written. *)
Definition compute_slope_and_classes (src : Raster F)
  : result (grid F * grid nat) :=
  let dem := band src in
  let mask := nodata_mask src in
  match gradient dem (yres src) (xres src) with
  | Raise e => Raise e
  | Ok (gy, gx) =>
      let slope_deg := elementwise2 fnan fnan slope_of_gradient gx gy in
      let slope_deg := set_where fnan mask fnan slope_deg in
      let classes := elementwise fnan (fun s => uint8 (digitize s bins)) slope_deg in
      let classes := set_where 0 mask 0 classes in
      Ok (slope_deg, classes)
  end.

End Kernel.

(** ** Exact arithmetic on extended reals *)

Module Exact.

(** The value a float denotes.  Signed zeros are not distinguished. *)
Inductive xfloat : Type :=
| Fin (x : R)
| PInf
| NInf
| NaN.

Definition Rposb (x : R) : bool := if Rlt_dec 0 x then true else false.
Definition Rnegb (x : R) : bool := if Rlt_dec x 0 then true else false.
Definition Rzerob (x : R) : bool := if Req_dec_T x 0 then true else false.
Definition signed_inf (positive : bool) : xfloat := if positive then PInf else NInf.

Definition xabs (a : xfloat) : xfloat :=
  match a with
  | Fin x => Fin (Rabs x)
  | PInf | NInf => PInf
  | NaN => NaN
  end.

Definition xadd (a b : xfloat) : xfloat :=
  match a, b with
  | NaN, _ | _, NaN => NaN
  | Fin x, Fin y => Fin (x + y)
  | PInf, NInf | NInf, PInf => NaN
  | PInf, _ | _, PInf => PInf
  | NInf, _ | _, NInf => NInf
  end.

Definition xsub (a b : xfloat) : xfloat :=
  match a, b with
  | NaN, _ | _, NaN => NaN
  | Fin x, Fin y => Fin (x - y)
  | PInf, PInf | NInf, NInf => NaN
  | PInf, _ | _, NInf => PInf
  | NInf, _ | _, PInf => NInf
  end.

Definition xmul (a b : xfloat) : xfloat :=
  match a, b with
  | NaN, _ | _, NaN => NaN
  | Fin x, Fin y => Fin (x * y)
  | Fin x, PInf | PInf, Fin x =>
      if Rzerob x then NaN else signed_inf (Rposb x)
  | Fin x, NInf | NInf, Fin x =>
      if Rzerob x then NaN else signed_inf (Rnegb x)
  | PInf, PInf | NInf, NInf => PInf
  | PInf, NInf | NInf, PInf => NInf
  end.

(** A zero divisor is +0: the code divides by absolute values only. *)
Definition xdiv (a b : xfloat) : xfloat :=
  match a, b with
  | NaN, _ | _, NaN => NaN
  | Fin x, Fin y =>
      if Rzerob y
      then (if Rzerob x then NaN else signed_inf (Rposb x))
      else Fin (x / y)
  | Fin _, (PInf | NInf) => Fin 0
  | PInf, Fin y => signed_inf (negb (Rnegb y))
  | NInf, Fin y => signed_inf (Rnegb y)
  | (PInf | NInf), (PInf | NInf) => NaN
  end.

Definition xsqrt (a : xfloat) : xfloat :=
  match a with
  | Fin x => if Rnegb x then NaN else Fin (sqrt x)
  | PInf => PInf
  | NInf | NaN => NaN
  end.

Definition xarctan (a : xfloat) : xfloat :=
  match a with
  | Fin x => Fin (atan x)
  | PInf => Fin (PI / 2)
  | NInf => Fin (- (PI / 2))
  | NaN => NaN
  end.

(** [np.degrees(x) = x * (180 / pi)]. *)
Definition xdegrees (a : xfloat) : xfloat :=
  match a with
  | Fin x => Fin (x * (180 / PI))
  | PInf => PInf
  | NInf => NInf
  | NaN => NaN
  end.

(** IEEE comparisons: every comparison with NaN is false. *)
Definition xeqb (a b : xfloat) : bool :=
  match a, b with
  | Fin x, Fin y => if Req_dec_T x y then true else false
  | PInf, PInf | NInf, NInf => true
  | _, _ => false
  end.

Definition xltb (a b : xfloat) : bool :=
  match a, b with
  | Fin x, Fin y => if Rlt_dec x y then true else false
  | NInf, (Fin _ | PInf) | Fin _, PInf => true
  | _, _ => false
  end.

Definition xleb (a b : xfloat) : bool :=
  match a, b with
  | Fin x, Fin y => if Rle_dec x y then true else false
  | NInf, (Fin _ | PInf | NInf) | (Fin _ | PInf), PInf => true
  | _, _ => false
  end.

Definition xisnan (a : xfloat) : bool :=
  match a with NaN => true | _ => false end.

#[global] Instance ops : FloatOps xfloat := {|
  of_Z z := Fin (IZR z);
  fnan := NaN;
  fabs := xabs;
  fsub := xsub;
  fadd := xadd;
  fmul := xmul;
  fdiv := xdiv;
  fsqrt := xsqrt;
  farctan := xarctan;
  fdegrees := xdegrees;
  feqb := xeqb;
  fltb := xltb;
  fisnan := xisnan
|}.

(** A spacing that is a positive real number. *)
Definition positive (a : xfloat) : Prop := exists x, a = Fin x /\ (0 < x)%R.

(** The grid [g] holds the finite elevations [E r c]. *)
Definition reads_as (g : grid xfloat) (E : nat -> nat -> R) : Prop :=
  forall r c, r < nrows g -> c < ncols g -> cell NaN g r c = Fin (E r c).

(** The [nr] x [nc] grid of the finite elevations [E r c]. *)
Definition finite_dem (nr nc : nat) (E : nat -> nat -> R) : grid xfloat :=
  tabulate nr nc (fun r c => Fin (E r c)).

(** A uniform ramp: elevation [b] at cell (0, 0), rising by [kx] per column
    and by [ky] per row. *)
Definition ramp (b kx ky : R) (r c : nat) : R :=
  (b + kx * INR c + ky * INR r)%R.

(** The finite-difference formulas as the specification writes them, on
    real numbers: along an axis of [n] samples [e] at spacing [d]. *)
Definition centered (d : R) (e : nat -> R) (i : nat) : R :=
  ((e (i + 1)%nat - e (i - 1)%nat) / (2 * d))%R.
Definition forward (d : R) (e : nat -> R) : R :=
  ((e 1%nat - e 0%nat) / d)%R.
Definition backward (n : nat) (d : R) (e : nat -> R) : R :=
  ((e (n - 1)%nat - e (n - 2)%nat) / d)%R.

Definition finite_difference (n : nat) (d : R) (e : nat -> R) (i : nat) : R :=
  if i =? 0 then forward d e
  else if i =? n - 1 then backward n d e
  else centered d e i.

(** [atan (sqrt (gx^2 + gy^2))] in degrees. *)
Definition slope_degrees (gx gy : R) : R :=
  (atan (sqrt (gx * gx + gy * gy)) * (180 / PI))%R.

(** The half-open bins as the specification writes them; a comparison
    with NaN is false. *)
Definition right_open_binning (s : xfloat) (k : nat) : Prop :=
  (xltb s (Fin 5) = true -> k = 0) /\
  (xleb (Fin 5) s = true -> xltb s (Fin 15) = true -> k = 1) /\
  (xleb (Fin 15) s = true -> xltb s (Fin 30) = true -> k = 2) /\
  (xleb (Fin 30) s = true -> xltb s (Fin 45) = true -> k = 3) /\
  (xleb (Fin 45) s = true -> k = 4).

(** The 3 x 3 grid of the specification's edge-cell case, spacing (1, 1);
    the y pixel size of a north-up raster is negative. *)
Definition plateau : Raster xfloat := {|
  band := [[Fin 0; Fin 0; Fin 0]; [Fin 0; Fin 0; Fin 0]; [Fin 10; Fin 10; Fin 10]];
  nodata := None;
  transform_a := Fin 1;
  transform_e := Fin (-1)
|}.

(** A 1 x 5 grid. *)
Definition strip : Raster xfloat := {|
  band := [[Fin 0; Fin 1; Fin 2; Fin 3; Fin 4]];
  nodata := None;
  transform_a := Fin 1;
  transform_e := Fin (-1)
|}.

(** A 2 x 2 grid whose x pixel size is zero and y pixel size negative. *)
Definition unspaced : Raster xfloat := {|
  band := [[Fin 0; Fin 1]; [Fin 2; Fin 3]];
  nodata := None;
  transform_a := Fin 0;
  transform_e := Fin (-1)
|}.

(** A 2 x 2 grid with no-data value [nd] that stores [v] at cell (0, 1)
    and 0 elsewhere. *)
Definition hole (nd v : R) : Raster xfloat := {|
  band := [[Fin 0; Fin v]; [Fin 0; Fin 0]];
  nodata := Some (Fin nd);
  transform_a := Fin 1;
  transform_e := Fin (-1)
|}.

(** A 2 x 2 grid whose no-data value is NaN, with NaN at cell (0, 1). *)
Definition nan_hole : Raster xfloat := {|
  band := [[Fin 0; NaN]; [Fin 0; Fin 0]];
  nodata := Some NaN;
  transform_a := Fin 1;
  transform_e := Fin (-1)
|}.

(** A raster of finite elevations [E]. *)
Definition finite_raster (nr nc : nat) (E : nat -> nat -> R)
           (nd : option xfloat) (a e : R) : Raster xfloat := {|
  band := finite_dem nr nc E;
  nodata := nd;
  transform_a := Fin a;
  transform_e := Fin e
|}.

End Exact.

(** ** IEEE 754 single precision *)

Module Binary32.

Definition prec : Z := 24.
Definition emax : Z := 128.

Definition f32 : Type := spec_float.

(** The float32 of an integer (round to nearest even). *)
Definition f32_of_Z (z : Z) : f32 := binary_normalize prec emax z 0 false.

(** [NPY_PIf], the float32 nearest pi: 0x40490FDB. *)
Definition pi_f32 : f32 := S754_finite false 13176795 (-22).

(** The float32 nearest pi/2: 0x3FC90FDB. *)
Definition half_pi_f32 : f32 := S754_finite false 13176795 (-23).

(** numpy's [npy_rad2degf]: [x * (180.0f / NPY_PIf)]. *)
Definition rad2deg (x : f32) : f32 :=
  SFmul prec emax x (SFdiv prec emax (f32_of_Z 180) pi_f32).

Definition f32_isnan (x : f32) : bool :=
  match x with S754_nan => true | _ => false end.

(** The float operations in single precision, for an arctangent
    [arctan]: [np.arctan] is a libm routine, not an IEEE basic operation. *)
Definition ops (arctan : f32 -> f32) : FloatOps f32 := {|
  of_Z := f32_of_Z;
  fnan := S754_nan;
  fabs := SFabs;
  fsub := SFsub prec emax;
  fadd := SFadd prec emax;
  fmul := SFmul prec emax;
  fdiv := SFdiv prec emax;
  fsqrt := SFsqrt prec emax;
  farctan := arctan;
  fdegrees := rad2deg;
  feqb := SFeqb;
  fltb := SFltb;
  fisnan := f32_isnan
|}.

(** The C standard (Annex F) and IEEE 754 fix the arctangent of plus
    infinity: the float nearest pi/2. *)
Definition arctan_at_infinity (arctan : f32 -> f32) : Prop :=
  arctan (S754_infinity false) = half_pi_f32.

(** A 2 x 2 DEM of finite float32 values, 0 and 2^64, with pixel sizes 1
    and -1 and no no-data value. *)
Definition steep : Raster f32 := {|
  band := [[f32_of_Z 0; f32_of_Z (2 ^ 64)]; [f32_of_Z 0; f32_of_Z (2 ^ 64)]];
  nodata := None;
  transform_a := f32_of_Z 1;
  transform_e := f32_of_Z (-1)
|}.

Definition f32_finite (x : f32) : bool :=
  match x with S754_zero _ | S754_finite _ _ _ => true | _ => false end.

(** The C standard (Annex F) and IEEE 754 fix the arctangent of +0: +0. *)
Definition arctan_at_zero (arctan : f32 -> f32) : Prop :=
  arctan (S754_zero false) = S754_zero false.

(** The arctangent of 4 is the float32 nearest atan 4, 0x3FA9B465, or one of
    its two neighbours. *)
Definition arctan_near_4 (arctan : f32 -> f32) : Prop :=
  exists m, In m [11121764; 11121765; 11121766]%positive /\
            arctan (f32_of_Z 4) = S754_finite false m (-23).

(** Line 42, [astype("float32")], of a 3 x 6 integer DEM: the uniform ramp
    that holds 2^26 in column 0 and rises by [k] per column; pixel sizes 1
    and -1 and no no-data value. *)
Definition int_ramp (k : Z) : Raster f32 := {|
  band := tabulate 3 6 (fun _ c => f32_of_Z (2 ^ 26 + k * Z.of_nat c));
  nodata := None;
  transform_a := f32_of_Z 1;
  transform_e := f32_of_Z (-1)
|}.

End Binary32.


(** ** What the run reports *)

(** [m.sum()] of a boolean array: the number of its True cells. *)
Definition count_true (m : grid bool) : nat :=
  length (filter (fun b => b) (concat m)).

(** The number of cells [(r, c)] below [(nr, nc)], each weighted by
    [f r c]. *)
Definition dsum (nr nc : nat) (f : nat -> nat -> nat) : nat :=
  list_sum (map (fun r => list_sum (map (fun c => f r c) (seq 0 nc))) (seq 0 nr)).

Section Report.
Context {F : Type} {ops : FloatOps F}.

(** Line 58: [mask.sum()] and [mask.size]. *)
Definition nodata_pixels (src : Raster F) : nat := count_true (nodata_mask src).
Definition mask_size (src : Raster F) : nat := length (concat (nodata_mask src)).

(** Line 121: [(~mask).sum()]. *)
Definition valid_pixels (src : Raster F) : nat :=
  count_true (elementwise false negb (nodata_mask src)).

(** Line 120: [np.sum(classes == i)]. *)
Definition class_count (classes : grid nat) (i : nat) : nat :=
  count_true (elementwise 0 (fun k => k =? i) classes).

(** Lines 98-104 and 119-120: one count per class name. *)
Definition n_classes : nat := 5.
Definition class_distribution (classes : grid nat) : list nat :=
  map (class_count classes) (seq 0 n_classes).



End Report.

Section Percentage.
Context {F : Type} {ops : FloatOps F}.

(** Line 121: [pct = 100 * count / (~mask).sum()], the integer product
    divided as floats. *)
Definition percentage (count valid : nat) : F :=
  fdiv (of_Z (100 * Z.of_nat count)) (of_Z (Z.of_nat valid)).

End Percentage.


(** ** The entry point and its files *)

From Stdlib Require String Ascii.

Module Paths.
Import String.
Local Open Scope string_scope.

(** A [pathlib.Path], by its components. *)
Definition path : Type := list string.

(** [p / name], for a name without a separator. *)
Definition joinpath (p : path) (name : string) : path := (p ++ [name])%list.

(** [os.path.basename(p)]: the last component. *)
Definition basename (p : path) : string := last p "".

(** [s[:-4]]: [s] without its last four characters, empty when [s] has
    fewer. *)
Definition drop_last4 (s : string) : string :=
  substring 0 (String.length s - 4) s.

(** Lines 140-141: the two output paths, from the directory and the path of
    the DEM. *)
Definition slope_path_of (data_dir dem_path : path) : path :=
  joinpath data_dir (drop_last4 (basename dem_path) ++ "_slope_deg.tif").
Definition class_path_of (data_dir dem_path : path) : path :=
  joinpath data_dir (drop_last4 (basename dem_path) ++ "_slope_classes.tif").

(** Lines 138-141. *)
Definition data_dir : path := ["data_out"].
Definition dem_path : path := joinpath data_dir "DEME_Zone3_2021_clip.tif".
Definition slope_path : path := slope_path_of data_dir dem_path.
Definition class_path : path := class_path_of data_dir dem_path.

End Paths.

Section Files.
Context {F : Type} {ops : FloatOps F}.

(** What [dem_path] holds when the run starts. *)
Inductive dem_file : Type :=
| Missing                  (* [dem_path.exists()] is false *)
| Unreadable               (* it exists; [rasterio.open] or [src.read] raises *)
| Holds (src : Raster F).  (* it exists and is read *)

(** A file that the run has written to.  A complete raster is its data and
    the no-data value of its profile; the slope raster has dtype float32, the
    class raster uint8.  [Incomplete] is a file whose [rasterio.open] in
    write mode or whose [dst.write] raised: what it holds, if it exists at
    all, is not specified. *)
Inductive written : Type :=
| SlopeRaster (nodata_value : F) (data : grid F)
| ClassRaster (nodata_value : nat) (data : grid nat)
| Incomplete.

(** The files written to so far, oldest first. *)
Definition disk : Type := list (Paths.path * written).

(** The environment decides which output files cannot be written. *)
Variable fails : Paths.path -> bool.

(** A step of the run: it may raise, and it may write files. *)
Definition io (A : Type) : Type := disk -> result A * disk.

Definition ret {A} (a : A) : io A := fun d => (Ok a, d).

Definition bind {A B} (m : io A) (k : A -> io B) : io B :=
  fun d =>
    match m d with
    | (Ok a, d') => k a d'
    | (Raise e, d') => (Raise e, d')
    end.

Definition lift {A} (r : result A) : io A := fun d => (r, d).

(** Lines 41-44: [with rasterio.open(dem_path) as src: src.read(1) ...]. *)
Definition read (dem : dem_file) : io (Raster F) :=
  match dem with
  | Holds src => ret src
  | Missing | Unreadable => lift (Raise RasterioIOError)
  end.

(** [with rasterio.open(p, "w", **profile) as dst: dst.write(data, 1)]. *)
Definition write (p : Paths.path) (w : written) : io unit :=
  fun d =>
    if fails p then (Raise RasterioIOError, d ++ [(p, Incomplete)])
    else (Ok tt, d ++ [(p, w)]).

(** [compute_slope_and_classes] with its read and its two writes, in program
    order: the DEM (lines 41-44), the gradient (line 71), the slope raster
    (lines 85-89, profile no-data NaN), the classes (lines 112-115) and the
    class raster (lines 126-130, profile no-data 0).  No exception is caught
    and no file is removed. *)
Definition run_compute_slope_and_classes (dem : dem_file)
           (slope_path class_path : Paths.path) : io unit :=
  bind (read dem) (fun src =>
  let dem := band src in
  let mask := nodata_mask src in
  bind (lift (gradient dem (yres src) (xres src))) (fun g =>
  let '(gy, gx) := g in
  let slope_deg := elementwise2 fnan fnan slope_of_gradient gx gy in
  let slope_deg := set_where fnan mask fnan slope_deg in
  bind (write slope_path (SlopeRaster fnan slope_deg)) (fun _ =>
  let classes := elementwise fnan (fun s => uint8 (digitize s bins)) slope_deg in
  let classes := set_where 0 mask 0 classes in
  write class_path (ClassRaster 0 classes)))).

(** [main], lines 135-174.  The result is the returned exit code; an
    exception of [compute_slope_and_classes] escapes.
    [data_dir.mkdir(exist_ok=True)] comes after the existence check of a file
    of that directory, so it creates nothing. *)
Definition main (dem : dem_file) : io nat :=
  match dem with
  | Missing => ret 1
  | Unreadable | Holds _ =>
      bind (run_compute_slope_and_classes dem Paths.slope_path Paths.class_path)
           (fun _ => ret 0)
  end.

End Files.

(** The cases of an outcome of the run that cannot arise. *)
Ltac outcome :=
  repeat match goal with
         | H : exists _, _ |- _ => destruct H
         | H : _ /\ _ |- _ => destruct H
         | H : _ \/ _ |- _ => destruct H
         | H : Holds _ = Holds _ |- _ => injection H as H; subst
         | H : Ok _ = Ok _ |- _ => injection H as H; subst
         end;
  try discriminate; try congruence; try lia; auto.


(** * Properties *)

(** ** Arrays *)

Section GridFacts.
Context {A : Type}.

Lemma cell_tabulate (d : A) nr nc (f : nat -> nat -> A) r c :
  r < nr -> c < nc -> cell d (tabulate nr nc f) r c = f r c.
Proof.
  intros Hr Hc. unfold cell, tabulate.
  rewrite (nth_indep _ [] (map (fun j => f 0 j) (seq 0 nc)))
    by (rewrite length_map, length_seq; exact Hr).
  rewrite (map_nth (fun i => map (fun j => f i j) (seq 0 nc)) (seq 0 nr) 0 r).
  rewrite seq_nth by exact Hr. simpl.
  rewrite (nth_indep _ d (f r 0))
    by (rewrite length_map, length_seq; exact Hc).
  rewrite (map_nth (fun j => f r j) (seq 0 nc) 0 c).
  rewrite seq_nth by exact Hc. reflexivity.
Qed.

Lemma lookup_tabulate nr nc (f : nat -> nat -> A) r c :
  r < nr -> c < nc -> lookup (tabulate nr nc f) r c = Some (f r c).
Proof.
  intros Hr Hc. unfold lookup, tabulate.
  rewrite nth_error_map, nth_error_seq.
  destruct (Nat.ltb_spec r nr); [|lia]. simpl.
  rewrite nth_error_map, nth_error_seq.
  destruct (Nat.ltb_spec c nc); [|lia]. reflexivity.
Qed.

Lemma nrows_tabulate nr nc (f : nat -> nat -> A) :
  nrows (tabulate nr nc f) = nr.
Proof. unfold nrows, tabulate. now rewrite length_map, length_seq. Qed.

Lemma ncols_tabulate nr nc (f : nat -> nat -> A) :
  0 < nr -> ncols (tabulate nr nc f) = nc.
Proof.
  intros H. unfold ncols, tabulate. destruct nr as [|n]; [lia|].
  simpl. now rewrite length_map, length_seq.
Qed.

End GridFacts.

(** ** The kernel, cell by cell *)

Section KernelFacts.
Context {F : Type} {ops : FloatOps F}.

Lemma gradient_ok (f : grid F) dy dx :
  2 <= nrows f -> 2 <= ncols f ->
  gradient f dy dx =
    Ok (tabulate (nrows f) (ncols f) (gradient_axis0 f dy),
        tabulate (nrows f) (ncols f) (gradient_axis1 f dx)).
Proof.
  intros Hr Hc. unfold gradient.
  destruct (Nat.ltb_spec (nrows f) 2); [lia|].
  destruct (Nat.ltb_spec (ncols f) 2); [lia|]. reflexivity.
Qed.

Lemma gradient_raise (f : grid F) dy dx :
  nrows f < 2 \/ ncols f < 2 -> gradient f dy dx = Raise ValueError.
Proof.
  intros H. unfold gradient.
  destruct (Nat.ltb_spec (nrows f) 2); [reflexivity|].
  destruct (Nat.ltb_spec (ncols f) 2); [reflexivity|]. lia.
Qed.

(** The cell of the mask. *)
Lemma cell_nodata_mask (src : Raster F) r c :
  r < nrows (band src) -> c < ncols (band src) ->
  cell false (nodata_mask src) r c =
    match nodata src with
    | Some nd => feqb (cell fnan (band src) r c) nd
    | None => fisnan (cell fnan (band src) r c)
    end.
Proof.
  intros Hr Hc. unfold nodata_mask, elementwise.
  destruct (nodata src); now rewrite cell_tabulate.
Qed.

(** On a grid with at least 2 rows and 2 columns the kernel returns, and
    every cell of its two rasters is determined by the mask and the raw
    slope of the same cell. *)
Lemma compute_cells (src : Raster F) :
  2 <= nrows (band src) -> 2 <= ncols (band src) ->
  exists slope classes,
    compute_slope_and_classes src = Ok (slope, classes) /\
    forall r c, r < nrows (band src) -> c < ncols (band src) ->
      lookup slope r c =
        Some (if cell false (nodata_mask src) r c then fnan
              else raw_slope src r c) /\
      lookup classes r c =
        Some (if cell false (nodata_mask src) r c then 0
              else uint8 (digitize (raw_slope src r c) bins)).
Proof.
  intros Hr Hc. unfold compute_slope_and_classes.
  rewrite gradient_ok by assumption.
  eexists; eexists; split; [reflexivity|].
  intros r c Hr' Hc'.
  unfold set_where, elementwise2, elementwise.
  repeat rewrite ?nrows_tabulate, ?ncols_tabulate by lia.
  rewrite !lookup_tabulate by assumption.
  rewrite !cell_tabulate by assumption. unfold raw_slope.
  destruct (cell false (nodata_mask src) r c); split; reflexivity.
Qed.

Lemma compute_raise (src : Raster F) :
  nrows (band src) < 2 \/ ncols (band src) < 2 ->
  compute_slope_and_classes src = Raise ValueError.
Proof.
  intros H. unfold compute_slope_and_classes.
  now rewrite gradient_raise.
Qed.

Lemma compute_total (src : Raster F) :
  2 <= nrows (band src) -> 2 <= ncols (band src) ->
  exists out, compute_slope_and_classes src = Ok out.
Proof.
  intros Hr Hc. destruct (compute_cells src Hr Hc) as (s & k & H & _).
  now exists (s, k).
Qed.

(** What a returned pair of rasters holds. *)
Lemma compute_inv (src : Raster F) slope classes :
  compute_slope_and_classes src = Ok (slope, classes) ->
  2 <= nrows (band src) /\ 2 <= ncols (band src) /\
  forall r c, r < nrows (band src) -> c < ncols (band src) ->
    lookup slope r c =
      Some (if cell false (nodata_mask src) r c then fnan
            else raw_slope src r c) /\
    lookup classes r c =
      Some (if cell false (nodata_mask src) r c then 0
            else uint8 (digitize (raw_slope src r c) bins)).
Proof.
  intros H.
  destruct (le_lt_dec 2 (nrows (band src))) as [Hr|Hr];
    [destruct (le_lt_dec 2 (ncols (band src))) as [Hc|Hc]|].
  - destruct (compute_cells src Hr Hc) as (s & k & Hs & Hcells).
    rewrite Hs in H. injection H as <- <-. auto.
  - rewrite compute_raise in H by (right; exact Hc). discriminate.
  - rewrite compute_raise in H by (left; exact Hr). discriminate.
Qed.

End KernelFacts.

(** ** Exact arithmetic *)

Section ExactFacts.
Import Exact.
Local Open Scope R_scope.

Lemma Rzerob_false x : x <> 0 -> Rzerob x = false.
Proof. intros H. unfold Rzerob. destruct (Req_dec_T x 0); [contradiction|reflexivity]. Qed.

Lemma Rnegb_false x : 0 <= x -> Rnegb x = false.
Proof. intros H. unfold Rnegb. destruct (Rlt_dec x 0); [lra|reflexivity]. Qed.

Lemma xltb_Fin x y : xltb (Fin x) (Fin y) = true <-> x < y.
Proof. simpl. destruct (Rlt_dec x y); split; intros; try assumption; try reflexivity; try discriminate; contradiction. Qed.

Lemma xltb_Fin_false x y : xltb (Fin x) (Fin y) = false <-> y <= x.
Proof. simpl. destruct (Rlt_dec x y); split; intros; try reflexivity; try discriminate; lra. Qed.

Lemma xleb_Fin x y : xleb (Fin x) (Fin y) = true <-> x <= y.
Proof. simpl. destruct (Rle_dec x y); split; intros; try assumption; try reflexivity; try discriminate; contradiction. Qed.

Lemma xeqb_refl x : xeqb (Fin x) (Fin x) = true.
Proof. simpl. destruct (Req_dec_T x x); [reflexivity|contradiction]. Qed.

Lemma Rabs_m1 : Rabs (-1) = 1.
Proof. unfold Rabs. destruct (Rcase_abs (-1)); lra. Qed.

Lemma slope_of_gradient_Fin gx gy :
  slope_of_gradient (Fin gx) (Fin gy) = Fin (slope_degrees gx gy).
Proof.
  unfold slope_of_gradient, slope_degrees. cbn [fmul fadd fsqrt farctan fdegrees ops xmul xadd xsqrt].
  rewrite Rnegb_false by nra. reflexivity.
Qed.

Lemma diff1_Fin n d (at_ : nat -> xfloat) (e : nat -> R) i :
  0 < d -> (2 <= n)%nat -> (i < n)%nat ->
  (forall j, (j < n)%nat -> at_ j = Fin (e j)) ->
  diff1 n (Fin d) at_ i = Fin (finite_difference n d e i).
Proof.
  intros Hd Hn Hi Hat. unfold diff1, finite_difference, forward, backward, centered.
  destruct (Nat.eqb_spec i 0) as [->|Hi0].
  - rewrite !Hat by lia. cbn [fsub fdiv ops xsub xdiv].
    rewrite Rzerob_false by lra. reflexivity.
  - destruct (Nat.eqb_spec i (n - 1)) as [->|Hin].
    + rewrite !Hat by lia. cbn [fsub fdiv ops xsub xdiv].
      rewrite Rzerob_false by lra. reflexivity.
    + rewrite !Hat by lia. cbn [fsub fdiv fmul of_Z ops xsub xdiv xmul].
      rewrite Rzerob_false by lra. reflexivity.
Qed.

Lemma slope_degrees_range gx gy : 0 <= slope_degrees gx gy < 90.
Proof.
  unfold slope_degrees.
  assert (Hpi := PI_RGT_0).
  assert (Hk : 0 < 180 / PI) by (apply Rdiv_lt_0_compat; lra).
  set (g := sqrt (gx * gx + gy * gy)).
  assert (Hg : 0 <= g) by apply sqrt_pos.
  assert (H0 : 0 <= atan g).
  { destruct Hg as [Hg|Hg].
    - apply Rlt_le. rewrite <- atan_0. now apply atan_increasing.
    - rewrite <- Hg, atan_0. lra. }
  destruct (atan_bound g) as [_ Hub].
  split.
  - apply Rmult_le_pos; lra.
  - replace 90 with (PI / 2 * (180 / PI)) by (field; lra).
    apply Rmult_lt_compat_r; assumption.
Qed.

Lemma slope_degrees_flat : slope_degrees 0 0 = 0.
Proof.
  unfold slope_degrees. replace (0 * 0 + 0 * 0) with 0 by ring.
  rewrite sqrt_0, atan_0. ring.
Qed.

Lemma finite_difference_constant n d k i :
  d <> 0 -> finite_difference n d (fun _ => k) i = 0.
Proof.
  intros Hd. unfold finite_difference, forward, backward, centered.
  destruct (i =? 0)%nat; [|destruct (i =? n - 1)%nat]; field; lra.
Qed.

End ExactFacts.

Section ExactKernel.
Import Exact.
Local Open Scope R_scope.

(** With finite elevations and positive spacings the raw slope is the
    specification's formula on real numbers. *)
Lemma raw_slope_Fin (src : Raster xfloat) E dx dy r c :
  reads_as (band src) E ->
  xres src = Fin dx -> 0 < dx -> yres src = Fin dy -> 0 < dy ->
  (2 <= nrows (band src))%nat -> (2 <= ncols (band src))%nat ->
  (r < nrows (band src))%nat -> (c < ncols (band src))%nat ->
  raw_slope src r c =
    Fin (slope_degrees
           (finite_difference (ncols (band src)) dx (fun j => E r j) c)
           (finite_difference (nrows (band src)) dy (fun i => E i c) r)).
Proof.
  intros HE Hx Hdx Hy Hdy Hnr Hnc Hr Hc.
  unfold raw_slope, gradient_axis1, gradient_axis0. rewrite Hx, Hy.
  rewrite (@diff1_Fin _ dx _ (fun j => E r j)); try assumption.
  2:{ intros j Hj. now apply HE. }
  rewrite (@diff1_Fin _ dy _ (fun i => E i c)); try assumption.
  2:{ intros i Hi. now apply HE. }
  apply slope_of_gradient_Fin.
Qed.

Lemma digitize_Fin s :
  digitize (Fin s) bins =
    if Rlt_dec s 5 then 0%nat
    else if Rlt_dec s 15 then 1%nat
    else if Rlt_dec s 30 then 2%nat
    else if Rlt_dec s 45 then 3%nat
    else 4%nat.
Proof.
  unfold bins. cbn [digitize fltb of_Z ops xltb].
  repeat destruct (Rlt_dec s _); reflexivity.
Qed.

Lemma binning (s : xfloat) : right_open_binning s (uint8 (digitize s bins)).
Proof.
  unfold right_open_binning. destruct s as [s| | |].
  - rewrite digitize_Fin, !xltb_Fin, !xleb_Fin.
    repeat destruct (Rlt_dec s _); repeat split; intros; try lra; reflexivity.
  - repeat split; intros; try discriminate; reflexivity.
  - repeat split; intros; try discriminate; reflexivity.
  - repeat split; intros; discriminate.
Qed.

Lemma atan_le x y : x <= y -> atan x <= atan y.
Proof.
  intros [H|H]; [apply Rlt_le, atan_increasing, H | subst; lra].
Qed.

Lemma slope_degrees_le gx1 gy1 gx2 gy2 :
  gx1 * gx1 + gy1 * gy1 <= gx2 * gx2 + gy2 * gy2 ->
  slope_degrees gx1 gy1 <= slope_degrees gx2 gy2.
Proof.
  intros H. unfold slope_degrees.
  assert (Hpi := PI_RGT_0).
  apply Rmult_le_compat_r.
  - apply Rlt_le, Rdiv_lt_0_compat; lra.
  - apply atan_le, sqrt_le_1_alt, H.
Qed.

Lemma slope_degrees_lt gx1 gy1 gx2 gy2 :
  gx1 * gx1 + gy1 * gy1 < gx2 * gx2 + gy2 * gy2 ->
  slope_degrees gx1 gy1 < slope_degrees gx2 gy2.
Proof.
  intros H. unfold slope_degrees.
  assert (Hpi := PI_RGT_0).
  apply Rmult_lt_compat_r.
  - apply Rdiv_lt_0_compat; lra.
  - apply atan_increasing, sqrt_lt_1_alt. split; [nra|exact H].
Qed.

Lemma finite_difference_ramp_x n d b kx ky r c :
  d <> 0 -> (2 <= n)%nat -> (c < n)%nat ->
  finite_difference n d (fun j => ramp b kx ky r j) c = kx / d.
Proof.
  intros Hd Hn Hc. unfold finite_difference, forward, backward, centered, ramp.
  destruct (Nat.eqb_spec c 0) as [->|H0].
  - simpl INR. field; assumption.
  - destruct (Nat.eqb_spec c (n - 1)) as [->|H1].
    + replace (n - 1)%nat with (S (n - 2)) by lia. rewrite S_INR. field; assumption.
    + replace (c + 1)%nat with (S (S (c - 1))) by lia. rewrite !S_INR. field; assumption.
Qed.

Lemma finite_difference_ramp_y n d b kx ky r c :
  d <> 0 -> (2 <= n)%nat -> (r < n)%nat ->
  finite_difference n d (fun i => ramp b kx ky i c) r = ky / d.
Proof.
  intros Hd Hn Hr. unfold finite_difference, forward, backward, centered, ramp.
  destruct (Nat.eqb_spec r 0) as [->|H0].
  - simpl INR. field; assumption.
  - destruct (Nat.eqb_spec r (n - 1)) as [->|H1].
    + replace (n - 1)%nat with (S (n - 2)) by lia. rewrite S_INR. field; assumption.
    + replace (r + 1)%nat with (S (S (r - 1))) by lia. rewrite !S_INR. field; assumption.
Qed.

End ExactKernel.

Section ExactCells.
Import Exact.
Local Open Scope R_scope.

(** A valid cell of a grid of finite elevations, positive spacings. *)
Lemma valid_cell_exact (src : Raster xfloat) E dx dy r c slope classes :
  reads_as (band src) E ->
  xres src = Fin dx -> 0 < dx -> yres src = Fin dy -> 0 < dy ->
  (r < nrows (band src))%nat -> (c < ncols (band src))%nat ->
  cell false (nodata_mask src) r c = false ->
  compute_slope_and_classes src = Ok (slope, classes) ->
  let s := slope_degrees
             (finite_difference (ncols (band src)) dx (fun j => E r j) c)
             (finite_difference (nrows (band src)) dy (fun i => E i c) r) in
  lookup slope r c = Some (Fin s) /\
  lookup classes r c = Some (uint8 (digitize (Fin s) bins)).
Proof.
  intros HE Hx Hdx Hy Hdy Hr Hc Hm H s.
  destruct (compute_inv src H) as (Hnr & Hnc & Hcells).
  destruct (Hcells r c Hr Hc) as [Hs Hk].
  rewrite Hm in Hs, Hk.
  rewrite (raw_slope_Fin src HE Hx Hdx Hy Hdy Hnr Hnc Hr Hc) in Hs, Hk.
  split; assumption.
Qed.

End ExactCells.


Section ExactExamples.
Import Exact.
Local Open Scope R_scope.

Lemma reads_as_finite_dem nr nc E : reads_as (finite_dem nr nc E) E.
Proof.
  intros r c Hr Hc. unfold finite_dem in *.
  rewrite nrows_tabulate in Hr.
  rewrite ncols_tabulate in Hc by lia.
  now rewrite cell_tabulate.
Qed.

Lemma positive_xabs a : a <> 0 -> positive (xabs (Fin a)).
Proof. intros H. exists (Rabs a). split; [reflexivity|]. now apply Rabs_pos_lt. Qed.

Lemma plateau_reads : reads_as (band plateau) (fun r _ => if (r =? 2)%nat then 10 else 0).
Proof.
  intros r c Hr Hc. unfold nrows, ncols in *. simpl in Hr, Hc.
  destruct r as [|[|[|r]]]; try lia; destruct c as [|[|[|c]]]; try lia; reflexivity.
Qed.

Lemma hole_reads nd v :
  reads_as (band (hole nd v)) (fun r c => if ((r =? 0) && (c =? 1))%nat then v else 0).
Proof.
  intros r c Hr Hc. unfold nrows, ncols in *. simpl in Hr, Hc.
  destruct r as [|[|r]]; try lia; destruct c as [|[|c]]; try lia; reflexivity.
Qed.

Lemma unit_xres (src : Raster xfloat) : transform_a src = Fin 1 -> xres src = Fin 1.
Proof. intros H. unfold xres. rewrite H. simpl. now rewrite Rabs_R1. Qed.

Lemma unit_yres (src : Raster xfloat) : transform_e src = Fin (-1) -> yres src = Fin 1.
Proof. intros H. unfold yres. rewrite H. simpl. now rewrite Rabs_m1. Qed.

End ExactExamples.

Section RampFacts.
Import Exact.
Local Open Scope R_scope.

Lemma square_quotient_le a b d :
  0 < d -> Rabs a <= Rabs b -> a / d * (a / d) <= b / d * (b / d).
Proof.
  intros Hd H. apply Rsqr_le_abs_1 in H. unfold Rsqr in H.
  replace (a / d * (a / d)) with (a * a * / (d * d)) by (field; lra).
  replace (b / d * (b / d)) with (b * b * / (d * d)) by (field; lra).
  apply Rmult_le_compat_r; [|exact H].
  apply Rlt_le, Rinv_0_lt_compat. nra.
Qed.

(** The slope of a valid cell of a uniform ramp. *)
Lemma ramp_cell (src : Raster xfloat) b kx ky dx dy r c slope classes :
  reads_as (band src) (ramp b kx ky) ->
  xres src = Fin dx -> 0 < dx -> yres src = Fin dy -> 0 < dy ->
  (r < nrows (band src))%nat -> (c < ncols (band src))%nat ->
  cell false (nodata_mask src) r c = false ->
  compute_slope_and_classes src = Ok (slope, classes) ->
  lookup slope r c = Some (Fin (slope_degrees (kx / dx) (ky / dy))).
Proof.
  intros HE Hx Hdx Hy Hdy Hr Hc Hm H.
  destruct (compute_inv src H) as (Hnr & Hnc & _).
  destruct (valid_cell_exact src HE Hx Hdx Hy Hdy Hr Hc Hm H) as [Hs _].
  rewrite Hs. do 2 f_equal. f_equal.
  - apply finite_difference_ramp_x; [lra | assumption | assumption].
  - apply finite_difference_ramp_y; [lra | assumption | assumption].
Qed.

End RampFacts.

Section ExampleSlopes.
Import Exact.
Local Open Scope R_scope.

Lemma slope_degrees_axis g : 0 <= g -> slope_degrees 0 g = atan g * (180 / PI).
Proof.
  intros Hg. unfold slope_degrees.
  replace (0 * 0 + g * g) with (g * g) by ring.
  now rewrite sqrt_square.
Qed.

Lemma steep_slope g : 1 <= g -> 45 <= atan g * (180 / PI).
Proof.
  intros Hg. assert (Hpi := PI_RGT_0).
  replace 45 with (PI / 4 * (180 / PI)) by (field; lra).
  apply Rmult_le_compat_r.
  - apply Rlt_le, Rdiv_lt_0_compat; lra.
  - rewrite <- atan_1. now apply atan_le.
Qed.

Lemma steep_class s : 45 <= s -> uint8 (digitize (Fin s) bins) = 4%nat.
Proof.
  intros Hs. rewrite digitize_Fin.
  repeat (destruct (Rlt_dec _ _); try lra). reflexivity.
Qed.

Lemma flat_class : uint8 (digitize (Fin 0) bins) = 0%nat.
Proof.
  rewrite digitize_Fin. destruct (Rlt_dec 0 5); [reflexivity|lra].
Qed.

(** The three cells of the plateau that the specification works out. *)
Lemma plateau_cell r c slope classes :
  (r < 3)%nat -> (c < 3)%nat ->
  compute_slope_and_classes plateau = Ok (slope, classes) ->
  let s := slope_degrees
             (finite_difference 3 1 (fun _ => if (r =? 2)%nat then 10 else 0) c)
             (finite_difference 3 1 (fun i => if (i =? 2)%nat then 10 else 0) r) in
  lookup slope r c = Some (Fin s) /\
  lookup classes r c = Some (uint8 (digitize (Fin s) bins)).
Proof.
  intros Hr Hc H.
  apply (valid_cell_exact plateau plateau_reads (dx := 1) (dy := 1));
    [ now apply unit_xres | lra | now apply unit_yres | lra
    | exact Hr | exact Hc | | exact H ].
  destruct r as [|[|[|r]]]; try lia; destruct c as [|[|[|c]]]; try lia; reflexivity.
Qed.

Lemma hole_cell nd v slope classes :
  nd <> 0 ->
  compute_slope_and_classes (hole nd v) = Ok (slope, classes) ->
  lookup slope 0 0 = Some (Fin (slope_degrees v 0)).
Proof.
  intros Hnd H.
  destruct (valid_cell_exact (hole nd v) (@hole_reads nd v) (dx := 1) (dy := 1)
              (r := 0) (c := 0) (slope := slope) (classes := classes)) as [Hs _];
    [ now apply unit_xres | lra | now apply unit_yres | lra
    | shape | shape | | exact H | ].
  - change (xeqb (Fin 0) (Fin nd) = false). simpl.
    destruct (Req_dec_T 0 nd); [congruence|reflexivity].
  - rewrite Hs. do 2 f_equal. f_equal.
    + unfold finite_difference, forward. simpl. field.
    + unfold finite_difference, forward. simpl. field.
Qed.

End ExampleSlopes.

Section GradientExact.
Import Exact.
Local Open Scope R_scope.

Lemma gradient_exact (src : Raster xfloat) E dx dy :
  reads_as (band src) E ->
  xres src = Fin dx -> 0 < dx -> yres src = Fin dy -> 0 < dy ->
  (2 <= nrows (band src))%nat -> (2 <= ncols (band src))%nat ->
  exists gy gx,
    gradient (band src) (yres src) (xres src) = Ok (gy, gx) /\
    forall r c, (r < nrows (band src))%nat -> (c < ncols (band src))%nat ->
      lookup gx r c =
        Some (Fin (finite_difference (ncols (band src)) dx (fun j => E r j) c)) /\
      lookup gy r c =
        Some (Fin (finite_difference (nrows (band src)) dy (fun i => E i c) r)).
Proof.
  intros HE Hx Hdx Hy Hdy Hnr Hnc.
  rewrite gradient_ok by assumption.
  eexists; eexists; split; [reflexivity|].
  intros r c Hr Hc. rewrite !lookup_tabulate by assumption.
  unfold gradient_axis1, gradient_axis0. rewrite Hx, Hy.
  rewrite (@diff1_Fin _ dx _ (fun j => E r j)); try assumption.
  2:{ intros j Hj. now apply HE. }
  rewrite (@diff1_Fin _ dy _ (fun i => E i c)); try assumption.
  2:{ intros i Hi. now apply HE. }
  split; reflexivity.
Qed.

Lemma finite_difference_first n d e : finite_difference n d e 0 = forward d e.
Proof. reflexivity. Qed.

Lemma finite_difference_last n d e :
  (2 <= n)%nat -> finite_difference n d e (n - 1) = backward n d e.
Proof.
  intros Hn. unfold finite_difference.
  destruct (Nat.eqb_spec (n - 1) 0); [lia|]. now rewrite Nat.eqb_refl.
Qed.

Lemma finite_difference_inner n d e i :
  (0 < i < n - 1)%nat -> finite_difference n d e i = centered d e i.
Proof.
  intros Hi. unfold finite_difference.
  destruct (Nat.eqb_spec i 0); [lia|].
  destruct (Nat.eqb_spec i (n - 1)); [lia|]. reflexivity.
Qed.

End GradientExact.

Section PlateauCells.
Import Exact.
Local Open Scope R_scope.

Variables (slope : grid xfloat) (classes : grid nat).
Hypothesis H : compute_slope_and_classes plateau = Ok (slope, classes).

Lemma plateau_corner :
  lookup slope 0 0 = Some (Fin 0) /\ lookup classes 0 0 = Some 0%nat.
Proof.
  destruct (@plateau_cell 0 0 slope classes) as [Hs Hk]; [lia | lia | exact H |].
  cbv [finite_difference forward backward centered Nat.eqb Nat.sub Nat.add] in Hs, Hk.
  replace ((0 - 0) / 1) with 0 in Hs, Hk by field.
  rewrite slope_degrees_flat in Hs, Hk. rewrite flat_class in Hk.
  split; assumption.
Qed.

Lemma plateau_middle :
  lookup slope 1 1 = Some (Fin (atan 5 * (180 / PI))) /\
  lookup classes 1 1 = Some 4%nat.
Proof.
  destruct (@plateau_cell 1 1 slope classes) as [Hs Hk]; [lia | lia | exact H |].
  cbv [finite_difference forward backward centered Nat.eqb Nat.sub Nat.add] in Hs, Hk.
  replace ((0 - 0) / (2 * 1)) with 0 in Hs, Hk by field.
  replace ((10 - 0) / (2 * 1)) with 5 in Hs, Hk by field.
  rewrite slope_degrees_axis in Hs, Hk by lra.
  rewrite steep_class in Hk by (apply steep_slope; lra).
  split; assumption.
Qed.

Lemma plateau_bottom :
  lookup slope 2 1 = Some (Fin (atan 10 * (180 / PI))) /\
  lookup classes 2 1 = Some 4%nat.
Proof.
  destruct (@plateau_cell 2 1 slope classes) as [Hs Hk]; [lia | lia | exact H |].
  cbv [finite_difference forward backward centered Nat.eqb Nat.sub Nat.add] in Hs, Hk.
  replace ((10 - 10) / (2 * 1)) with 0 in Hs, Hk by field.
  replace ((10 - 0) / 1) with 10 in Hs, Hk by field.
  rewrite slope_degrees_axis in Hs, Hk by lra.
  rewrite steep_class in Hk by (apply steep_slope; lra).
  split; assumption.
Qed.

End PlateauCells.

(** * The claims *)

(** C1 (as the code has it): the gradient estimator.  On a grid of finite
    elevations [E] with at least 2 rows and 2 columns and positive spacings,
    [np.gradient] works axis by axis: [gx] is the centered difference over
    the doubled spacing when the column is neither the first nor the last,
    and the one-sided difference over the spacing itself in the first and in
    the last column; [gy] likewise by row; the slope of a valid cell is
    [atan (sqrt (gx^2 + gy^2))] in degrees.  On the 3 x 3 plateau with
    spacing (1, 1): cell (0, 0) has gx = gy = 0, slope 0, class 0; cell
    (1, 1) has gy = 5, slope [atan 5] in degrees, class 4; cell (2, 1), in
    the last row, has gx = 0 and the backward difference gy = 10, slope
    [atan 10] in degrees, class 4. *)
Theorem gradient_estimator :
  (forall (src : Raster Exact.xfloat) (E : nat -> nat -> R) (dx dy : R),
      Exact.reads_as (band src) E ->
      xres src = Exact.Fin dx -> (0 < dx)%R ->
      yres src = Exact.Fin dy -> (0 < dy)%R ->
      2 <= nrows (band src) -> 2 <= ncols (band src) ->
      exists gy gx,
        gradient (band src) (yres src) (xres src) = Ok (gy, gx) /\
        forall r c, r < nrows (band src) -> c < ncols (band src) ->
          (0 < c < ncols (band src) - 1 ->
           lookup gx r c =
             Some (Exact.Fin ((E r (c + 1)%nat - E r (c - 1)%nat) / (2 * dx))%R)) /\
          (c = 0 ->
           lookup gx r c = Some (Exact.Fin ((E r 1%nat - E r 0%nat) / dx)%R)) /\
          (c = ncols (band src) - 1 ->
           lookup gx r c =
             Some (Exact.Fin ((E r (ncols (band src) - 1)%nat -
                               E r (ncols (band src) - 2)%nat) / dx)%R)) /\
          (0 < r < nrows (band src) - 1 ->
           lookup gy r c =
             Some (Exact.Fin ((E (r + 1)%nat c - E (r - 1)%nat c) / (2 * dy))%R)) /\
          (r = 0 ->
           lookup gy r c = Some (Exact.Fin ((E 1%nat c - E 0%nat c) / dy)%R)) /\
          (r = nrows (band src) - 1 ->
           lookup gy r c =
             Some (Exact.Fin ((E (nrows (band src) - 1)%nat c -
                               E (nrows (band src) - 2)%nat c) / dy)%R)) /\
          (cell false (nodata_mask src) r c = false ->
           exists (vx vy : R) slope classes,
             lookup gx r c = Some (Exact.Fin vx) /\
             lookup gy r c = Some (Exact.Fin vy) /\
             compute_slope_and_classes src = Ok (slope, classes) /\
             lookup slope r c =
               Some (Exact.Fin (atan (sqrt (vx * vx + vy * vy)) * (180 / PI))%R))) /\
  (exists gy gx slope classes,
      gradient (band Exact.plateau) (yres Exact.plateau) (xres Exact.plateau)
        = Ok (gy, gx) /\
      compute_slope_and_classes Exact.plateau = Ok (slope, classes) /\
      (lookup gx 0 0 = Some (Exact.Fin 0) /\ lookup gy 0 0 = Some (Exact.Fin 0) /\
       lookup slope 0 0 = Some (Exact.Fin 0) /\ lookup classes 0 0 = Some 0) /\
      (lookup gx 1 1 = Some (Exact.Fin 0) /\ lookup gy 1 1 = Some (Exact.Fin 5) /\
       lookup slope 1 1 = Some (Exact.Fin (atan 5 * (180 / PI))%R) /\
       lookup classes 1 1 = Some 4) /\
      (lookup gx 2 1 = Some (Exact.Fin 0) /\ lookup gy 2 1 = Some (Exact.Fin 10) /\
       lookup slope 2 1 = Some (Exact.Fin (atan 10 * (180 / PI))%R) /\
       lookup classes 2 1 = Some 4)).
Proof.
  split.
  - intros src E dx dy HE Hx Hdx Hy Hdy Hnr Hnc.
    destruct (gradient_exact src HE Hx Hdx Hy Hdy Hnr Hnc) as (gy & gx & Hg & Hcells).
    exists gy, gx. split; [exact Hg|].
    intros r c Hr Hc. destruct (Hcells r c Hr Hc) as [Hgx Hgy].
    repeat split.
    + intros Hin. rewrite Hgx, finite_difference_inner by exact Hin. reflexivity.
    + intros ->. rewrite Hgx. reflexivity.
    + intros ->. rewrite Hgx, finite_difference_last by exact Hnc. reflexivity.
    + intros Hin. rewrite Hgy, finite_difference_inner by exact Hin. reflexivity.
    + intros ->. rewrite Hgy. reflexivity.
    + intros ->. rewrite Hgy, finite_difference_last by exact Hnr. reflexivity.
    + intros Hm.
      destruct (compute_total src Hnr Hnc) as [[slope classes] H].
      destruct (valid_cell_exact src HE Hx Hdx Hy Hdy Hr Hc Hm H) as [Hs _].
      eexists; eexists; exists slope, classes.
      split; [exact Hgx|]. split; [exact Hgy|]. split; [exact H|]. exact Hs.
  - destruct (@gradient_exact Exact.plateau _ 1%R 1%R plateau_reads)
      as (gy & gx & Hg & Hcells);
      [ now apply unit_xres | lra | now apply unit_yres | lra | shape | shape |].
    destruct (compute_total Exact.plateau) as [[slope classes] H]; [shape | shape |].
    exists gy, gx, slope, classes.
    split; [exact Hg|]. split; [exact H|].
    destruct (plateau_corner H) as [Hs0 Hk0].
    destruct (plateau_middle H) as [Hs1 Hk1].
    destruct (plateau_bottom H) as [Hs2 Hk2].
    split; [|split].
    + destruct (Hcells 0 0) as [Hgx Hgy]; [shape | shape |].
      cbv [Exact.finite_difference Exact.forward Exact.backward Exact.centered
             Nat.eqb Nat.sub Nat.add nrows ncols band Exact.plateau length hd]
        in Hgx, Hgy.
      replace ((0 - 0) / 1)%R with 0%R in Hgx, Hgy by field.
      repeat split; assumption.
    + destruct (Hcells 1 1) as [Hgx Hgy]; [shape | shape |].
      cbv [Exact.finite_difference Exact.forward Exact.backward Exact.centered
             Nat.eqb Nat.sub Nat.add nrows ncols band Exact.plateau length hd]
        in Hgx, Hgy.
      replace ((0 - 0) / (2 * 1))%R with 0%R in Hgx by field.
      replace ((10 - 0) / (2 * 1))%R with 5%R in Hgy by field.
      repeat split; assumption.
    + destruct (Hcells 2 1) as [Hgx Hgy]; [shape | shape |].
      cbv [Exact.finite_difference Exact.forward Exact.backward Exact.centered
             Nat.eqb Nat.sub Nat.add nrows ncols band Exact.plateau length hd]
        in Hgx, Hgy.
      replace ((10 - 10) / (2 * 1))%R with 0%R in Hgx by field.
      replace ((10 - 0) / 1)%R with 10%R in Hgy by field.
      repeat split; assumption.
Qed.

Lemma gradient_estimator_witness :
  exists gy gx,
    gradient (band Exact.plateau) (yres Exact.plateau) (xres Exact.plateau)
      = Ok (gy, gx) /\
    lookup gx 1 1 = Some (Exact.Fin ((0 - 0) / (2 * 1))%R) /\
    lookup gy 1 1 = Some (Exact.Fin ((10 - 0) / (2 * 1))%R).
Proof.
  destruct (proj1 gradient_estimator Exact.plateau
              (fun r _ => if r =? 2 then 10%R else 0%R) 1%R 1%R plateau_reads)
    as (gy & gx & Hg & Hcells);
    [ now apply unit_xres | lra | now apply unit_yres | lra | shape | shape |].
  exists gy, gx. split; [exact Hg|].
  destruct (Hcells 1 1) as (Hgx & _ & _ & Hgy & _); [shape | shape |].
  split; [apply Hgx; shape | apply Hgy; shape].
Defined.

(** C1 as stated fails at cell (2, 1) of the plateau: its slope is not 0,
    since the backward difference across the last two rows is 10. *)
Lemma plateau_bottom_row_is_steep :
  exists slope classes,
    compute_slope_and_classes Exact.plateau = Ok (slope, classes) /\
    lookup slope 2 1 <> Some (Exact.Fin 0).
Proof.
  destruct (compute_total Exact.plateau) as [[slope classes] H]; [shape | shape |].
  exists slope, classes. split; [exact H|].
  destruct (plateau_bottom H) as [Hs _]. rewrite Hs.
  intros Heq. injection Heq as Heq.
  assert (H45 := steep_slope (g := 10)). lra.
Qed.

(** C2: right-open binning.  The class of every valid cell is the bin of its
    slope over the thresholds 5, 15, 30, 45, each bin closed on the left and
    open on the right; a slope of exactly 5 is class 1, exactly 15 class 2,
    exactly 45 class 4. *)
Theorem classes_follow_bins (src : Raster Exact.xfloat) (r c : nat) :
  r < nrows (band src) -> c < ncols (band src) ->
  cell false (nodata_mask src) r c = false ->
  (2 <= nrows (band src) -> 2 <= ncols (band src) ->
   exists out, compute_slope_and_classes src = Ok out) /\
  (forall slope classes,
      compute_slope_and_classes src = Ok (slope, classes) ->
      exists s k,
        lookup slope r c = Some s /\ lookup classes r c = Some k /\
        Exact.right_open_binning s k /\
        (s = Exact.Fin 5 -> k = 1) /\
        (s = Exact.Fin 15 -> k = 2) /\
        (s = Exact.Fin 45 -> k = 4)).
Proof.
  intros Hr Hc Hm. split.
  - apply compute_total.
  - intros slope classes H.
    destruct (compute_inv src H) as (_ & _ & Hcells).
    destruct (Hcells r c Hr Hc) as [Hs Hk].
    rewrite Hm in Hs, Hk.
    exists (raw_slope src r c), (uint8 (digitize (raw_slope src r c) bins)).
    split; [exact Hs|]. split; [exact Hk|]. split; [apply binning|].
    repeat split; intros ->; rewrite digitize_Fin;
      repeat (destruct (Rlt_dec _ _); try lra); reflexivity.
Qed.

Lemma classes_follow_bins_witness :
  exists slope classes s k,
    compute_slope_and_classes Exact.plateau = Ok (slope, classes) /\
    lookup slope 0 0 = Some s /\ lookup classes 0 0 = Some k /\
    Exact.right_open_binning s k.
Proof.
  destruct (compute_total Exact.plateau) as [[slope classes] H]; [shape | shape |].
  destruct (@classes_follow_bins Exact.plateau 0 0) as [_ Hbins];
    [shape | shape | reflexivity |].
  destruct (Hbins slope classes H) as (s & k & Hs & Hk & Hb & _).
  exists slope, classes, s, k. auto.
Defined.

(** C3: mask propagation.  Whatever the float arithmetic, the elevation
    stored at a cell and the slope computed for it, a cell that the no-data
    mask marks gets NaN in the slope raster and 0 in the class raster; the
    rasters exist as soon as the grid has 2 rows and 2 columns. *)
Theorem mask_propagation {F : Type} {ops : FloatOps F} (src : Raster F) (r c : nat) :
  r < nrows (band src) -> c < ncols (band src) ->
  cell false (nodata_mask src) r c = true ->
  (2 <= nrows (band src) -> 2 <= ncols (band src) ->
   exists out, compute_slope_and_classes src = Ok out) /\
  (forall slope classes,
      compute_slope_and_classes src = Ok (slope, classes) ->
      lookup slope r c = Some fnan /\ lookup classes r c = Some 0).
Proof.
  intros Hr Hc Hm. split.
  - apply compute_total.
  - intros slope classes H.
    destruct (compute_inv src H) as (_ & _ & Hcells).
    destruct (Hcells r c Hr Hc) as [Hs Hk].
    rewrite Hm in Hs, Hk. split; assumption.
Qed.

Lemma mask_propagation_witness :
  exists slope classes,
    compute_slope_and_classes (Exact.hole (-9999) (-9999)) = Ok (slope, classes) /\
    lookup slope 0 1 = Some Exact.NaN /\ lookup classes 0 1 = Some 0.
Proof.
  destruct (@compute_total _ Exact.ops (Exact.hole (-9999) (-9999))) as [[s k] H];
    [shape | shape |].
  exists s, k. split; [exact H|].
  apply (@mask_propagation _ Exact.ops (Exact.hole (-9999) (-9999)) 0 1);
    [shape | shape | apply xeqb_refl | exact H].
Defined.

(** C4 (as the code has it): a grid with a single row or a single column is
    not processed; [np.gradient] raises [ValueError] and no raster is
    produced, whatever the float arithmetic. *)
Theorem degenerate_grid_raises {F : Type} {ops : FloatOps F} (src : Raster F) :
  nrows (band src) = 1 \/ ncols (band src) = 1 ->
  compute_slope_and_classes src = Raise ValueError.
Proof.
  intros H. apply compute_raise. lia.
Qed.

Lemma degenerate_grid_raises_witness :
  compute_slope_and_classes Exact.strip = Raise ValueError.
Proof.
  apply (@degenerate_grid_raises _ Exact.ops Exact.strip). left. reflexivity.
Defined.

(** C4 as stated fails: the 1 x 5 grid is not processed without error. *)
Lemma strip_is_rejected :
  nrows (band Exact.strip) = 1 /\ ncols (band Exact.strip) = 5 /\
  ~ exists out, compute_slope_and_classes Exact.strip = Ok out.
Proof.
  split; [reflexivity|]. split; [reflexivity|].
  intros [out H]. rewrite compute_raise in H by (left; shape).
  discriminate.
Qed.

(** C5 (as the code has it): there is no check of the pixel sizes.  Whatever
    the float arithmetic, the kernel returns exactly when the grid has at
    least 2 rows and 2 columns and raises [ValueError] otherwise; and, in
    exact arithmetic, a pixel size enters only through its absolute value. *)
Theorem no_spacing_check :
  (forall (F : Type) (ops : FloatOps F) (src : Raster F),
      ((exists out, compute_slope_and_classes src = Ok out) <->
       2 <= nrows (band src) /\ 2 <= ncols (band src)) /\
      (compute_slope_and_classes src = Raise ValueError <->
       nrows (band src) < 2 \/ ncols (band src) < 2)) /\
  (forall (src : Raster Exact.xfloat) (a e : R),
      compute_slope_and_classes (with_pixel_size src (Exact.Fin a) (Exact.Fin e)) =
      compute_slope_and_classes
        (with_pixel_size src (Exact.Fin (Rabs a)) (Exact.Fin (Rabs e)))).
Proof.
  split.
  - intros F ops src. split; split.
    + intros [[s k] H]. destruct (compute_inv src H) as (Hr & Hc & _). auto.
    + intros [Hr Hc]. now apply compute_total.
    + intros H.
      destruct (le_lt_dec 2 (nrows (band src))) as [Hr|Hr]; [|now left].
      destruct (le_lt_dec 2 (ncols (band src))) as [Hc|Hc]; [|now right].
      destruct (compute_total src Hr Hc) as [out Hout]. congruence.
    + apply compute_raise.
  - intros src a e.
    unfold compute_slope_and_classes, xres, yres, nodata_mask, with_pixel_size.
    simpl. rewrite !Rabs_Rabsolu. reflexivity.
Qed.

(** C5 as stated fails: with an x pixel size of zero and a negative y pixel
    size the kernel returns its two rasters. *)
Lemma unspaced_is_processed :
  xres Exact.unspaced = Exact.Fin 0 /\
  transform_e Exact.unspaced = Exact.Fin (-1) /\
  exists out, compute_slope_and_classes Exact.unspaced = Ok out.
Proof.
  split; [|split].
  - unfold xres. simpl. now rewrite Rabs_R0.
  - reflexivity.
  - apply compute_total; shape.
Qed.

(** C6 (in exact arithmetic): on a grid of finite elevations with positive
    finite spacings, the slope of every valid cell is a real number of
    [0, 90). *)
Theorem slope_range_exact (src : Raster Exact.xfloat) (E : nat -> nat -> R) (r c : nat) :
  Exact.reads_as (band src) E ->
  Exact.positive (xres src) -> Exact.positive (yres src) ->
  r < nrows (band src) -> c < ncols (band src) ->
  cell false (nodata_mask src) r c = false ->
  (2 <= nrows (band src) -> 2 <= ncols (band src) ->
   exists out, compute_slope_and_classes src = Ok out) /\
  (forall slope classes,
      compute_slope_and_classes src = Ok (slope, classes) ->
      exists s : R, lookup slope r c = Some (Exact.Fin s) /\ (0 <= s < 90)%R).
Proof.
  intros HE (dx & Hx & Hdx) (dy & Hy & Hdy) Hr Hc Hm. split.
  - apply compute_total.
  - intros slope classes H.
    destruct (valid_cell_exact src HE Hx Hdx Hy Hdy Hr Hc Hm H) as [Hs _].
    eexists. split; [exact Hs|]. apply slope_degrees_range.
Qed.

Lemma slope_range_exact_witness :
  exists slope classes (s : R),
    compute_slope_and_classes Exact.plateau = Ok (slope, classes) /\
    lookup slope 1 1 = Some (Exact.Fin s) /\ (0 <= s < 90)%R.
Proof.
  destruct (compute_total Exact.plateau) as [[slope classes] H]; [shape | shape |].
  destruct (@slope_range_exact Exact.plateau _ 1 1 plateau_reads) as [_ Hrange];
    [ apply positive_xabs; lra | apply positive_xabs; lra
    | shape | shape | reflexivity | ].
  destruct (Hrange slope classes H) as (s & Hs & Hb).
  exists slope, classes, s. auto.
Defined.

(** C6 as stated fails in the code's float32 arithmetic.  The grid [steep]
    holds finite values only and its spacings are 1, yet its squared
    gradient [(2^64)^2] overflows to infinity; for every arctangent that is
    right at infinity, the slope of its valid cell (0, 0) is then exactly
    90.0, which is not below 90. *)
Lemma slope_reaches_90_in_binary32 :
  (exists arctan, Binary32.arctan_at_infinity arctan) /\
  forallb (forallb Binary32.f32_finite) (band Binary32.steep) = true /\
  forall arctan : Binary32.f32 -> Binary32.f32,
    Binary32.arctan_at_infinity arctan ->
    @xres _ (Binary32.ops arctan) Binary32.steep = Binary32.f32_of_Z 1 /\
    @yres _ (Binary32.ops arctan) Binary32.steep = Binary32.f32_of_Z 1 /\
    cell false (@nodata_mask _ (Binary32.ops arctan) Binary32.steep) 0 0 = false /\
    exists slope classes,
      @compute_slope_and_classes _ (Binary32.ops arctan) Binary32.steep
        = Ok (slope, classes) /\
      lookup slope 0 0 = Some (Binary32.f32_of_Z 90) /\
      SFltb (Binary32.f32_of_Z 90) (Binary32.f32_of_Z 90) = false.
Proof.
  split; [exists (fun _ => Binary32.half_pi_f32); reflexivity|].
  split; [reflexivity|].
  intros arctan Ha.
  split; [reflexivity|]. split; [reflexivity|].
  assert (Hm : cell false (@nodata_mask _ (Binary32.ops arctan) Binary32.steep) 0 0
               = false) by reflexivity.
  split; [exact Hm|].
  destruct (@compute_cells _ (Binary32.ops arctan) Binary32.steep)
    as (slope & classes & H & Hcells); [shape | shape |].
  exists slope, classes. split; [exact H|]. split; [|reflexivity].
  destruct (Hcells 0 0) as [Hs _]; [shape | shape |].
  rewrite Hm in Hs. rewrite Hs. f_equal.
  unfold raw_slope, slope_of_gradient.
  replace (fsqrt _) with (S754_infinity false) by (vm_compute; reflexivity).
  cbn [farctan fdegrees Binary32.ops]. rewrite Ha. vm_compute. reflexivity.
Qed.

(** C7: the flat-grid invariant.  On a grid whose cells all hold the same
    finite elevation, with positive spacings, every valid cell gets slope 0
    and class 0. *)
Theorem flat_grid (src : Raster Exact.xfloat) (k : R) (r c : nat) :
  Exact.reads_as (band src) (fun _ _ => k) ->
  Exact.positive (xres src) -> Exact.positive (yres src) ->
  r < nrows (band src) -> c < ncols (band src) ->
  cell false (nodata_mask src) r c = false ->
  (2 <= nrows (band src) -> 2 <= ncols (band src) ->
   exists out, compute_slope_and_classes src = Ok out) /\
  (forall slope classes,
      compute_slope_and_classes src = Ok (slope, classes) ->
      lookup slope r c = Some (Exact.Fin 0) /\ lookup classes r c = Some 0).
Proof.
  intros HE (dx & Hx & Hdx) (dy & Hy & Hdy) Hr Hc Hm. split.
  - apply compute_total.
  - intros slope classes H.
    destruct (valid_cell_exact src HE Hx Hdx Hy Hdy Hr Hc Hm H) as [Hs Hk].
    rewrite !finite_difference_constant in Hs, Hk by lra.
    rewrite slope_degrees_flat in Hs, Hk.
    rewrite digitize_Fin in Hk.
    destruct (Rlt_dec 0 5) as [_|Hn]; [|exfalso; lra].
    split; assumption.
Qed.
Lemma flat_grid_witness :
  exists slope classes,
    compute_slope_and_classes (Exact.finite_raster 2 2 (fun _ _ => 100%R) None 1 (-1))
      = Ok (slope, classes) /\
    lookup slope 0 0 = Some (Exact.Fin 0) /\ lookup classes 0 0 = Some 0.
Proof.
  set (src := Exact.finite_raster 2 2 (fun _ _ => 100%R) None 1 (-1)).
  destruct (compute_total src) as [[s k] H]; [shape | shape |].
  exists s, k. split; [exact H|].
  apply (@flat_grid src 100%R 0 0);
    [ apply reads_as_finite_dem
    | apply positive_xabs; lra
    | apply positive_xabs; lra
    | shape | shape | reflexivity | exact H ].
Defined.

(** C8: monotonicity, in exact arithmetic and axis by axis.  Two uniform
    ramps on grids of the same shape with the same positive spacings: when
    each per-step rise of the second (per column and per row) is at least
    that of the first in magnitude, the slope of the second at an interior
    cell valid in both is at least that of the first. *)
Theorem ramp_monotonicity (src1 src2 : Raster Exact.xfloat)
        (b1 kx1 ky1 b2 kx2 ky2 dx dy : R) (r c : nat) :
  Exact.reads_as (band src1) (Exact.ramp b1 kx1 ky1) ->
  Exact.reads_as (band src2) (Exact.ramp b2 kx2 ky2) ->
  nrows (band src2) = nrows (band src1) ->
  ncols (band src2) = ncols (band src1) ->
  xres src1 = Exact.Fin dx -> xres src2 = Exact.Fin dx -> (0 < dx)%R ->
  yres src1 = Exact.Fin dy -> yres src2 = Exact.Fin dy -> (0 < dy)%R ->
  (Rabs kx1 <= Rabs kx2)%R -> (Rabs ky1 <= Rabs ky2)%R ->
  0 < r < nrows (band src1) - 1 -> 0 < c < ncols (band src1) - 1 ->
  cell false (nodata_mask src1) r c = false ->
  cell false (nodata_mask src2) r c = false ->
  (exists out1 out2,
      compute_slope_and_classes src1 = Ok out1 /\
      compute_slope_and_classes src2 = Ok out2) /\
  (forall slope1 classes1 slope2 classes2,
      compute_slope_and_classes src1 = Ok (slope1, classes1) ->
      compute_slope_and_classes src2 = Ok (slope2, classes2) ->
      exists s1 s2 : R,
        lookup slope1 r c = Some (Exact.Fin s1) /\
        lookup slope2 r c = Some (Exact.Fin s2) /\
        (s1 <= s2)%R).
Proof.
  intros HE1 HE2 Hnr Hnc Hx1 Hx2 Hdx Hy1 Hy2 Hdy Hkx Hky Hr Hc Hm1 Hm2. split.
  - destruct (compute_total src1) as [o1 H1]; [lia | lia |].
    destruct (compute_total src2) as [o2 H2]; [lia | lia |].
    now exists o1, o2.
  - intros slope1 classes1 slope2 classes2 H1 H2.
    exists (Exact.slope_degrees (kx1 / dx) (ky1 / dy)),
           (Exact.slope_degrees (kx2 / dx) (ky2 / dy)).
    split; [|split].
    + apply (ramp_cell src1 (b := b1) (classes := classes1)); try assumption; lia.
    + apply (ramp_cell src2 (b := b2) (classes := classes2)); try assumption; lia.
    + apply slope_degrees_le. apply Rplus_le_compat; now apply square_quotient_le.
Qed.

Lemma ramp_monotonicity_witness :
  exists slope1 classes1 slope2 classes2 (s1 s2 : R),
    compute_slope_and_classes
      (Exact.finite_raster 3 3 (Exact.ramp 100 1 0) None 1 (-1)) = Ok (slope1, classes1) /\
    compute_slope_and_classes
      (Exact.finite_raster 3 3 (Exact.ramp 100 (-2) 0) None 1 (-1)) = Ok (slope2, classes2) /\
    lookup slope1 1 1 = Some (Exact.Fin s1) /\
    lookup slope2 1 1 = Some (Exact.Fin s2) /\
    (s1 <= s2)%R.
Proof.
  set (src1 := Exact.finite_raster 3 3 (Exact.ramp 100 1 0) None 1 (-1)).
  set (src2 := Exact.finite_raster 3 3 (Exact.ramp 100 (-2) 0) None 1 (-1)).
  destruct (@ramp_monotonicity src1 src2 100 1 0 100 (-2) 0 1 1 1 1)
    as [(o1 & o2 & H1 & H2) Hmono];
    [ apply reads_as_finite_dem | apply reads_as_finite_dem
    | reflexivity | reflexivity
    | now apply unit_xres | now apply unit_xres | lra
    | now apply unit_yres | now apply unit_yres | lra
    | unfold Rabs; repeat destruct (Rcase_abs _); lra
    | lra
    | shape | shape | reflexivity | reflexivity | ].
  destruct o1 as [slope1 classes1], o2 as [slope2 classes2].
  destruct (Hmono _ _ _ _ H1 H2) as (s1 & s2 & Hs1 & Hs2 & Hle).
  exists slope1, classes1, slope2, classes2, s1, s2. auto.
Defined.

(** C8 as stated fails, in two ways.  In the code's float32 arithmetic the
    integer ramps [2^26 + k * c] are rounded to multiples of 8 by the cast of
    line 42: at the interior cell (1, 4) the ramp of rise 1 has
    [gx = (2^26 + 8 - 2^26) / 2 = 4], a slope above 0 and class 4, and the
    ramp of rise 2 has [gx = 0], slope 0 and class 0, for every arctangent
    that is right at +0 and within one unit in the last place at 4.  And in
    exact arithmetic, with pixel sizes 1 and 10, a ramp that rises by 2 per
    row has a smaller slope at the interior cell (1, 1) than a ramp that
    rises by 1 per column: the rises have to be compared axis by axis. *)
Lemma steeper_ramp_gets_smaller_slope :
  (exists arctan, Binary32.arctan_at_zero arctan /\ Binary32.arctan_near_4 arctan) /\
  (forall arctan : Binary32.f32 -> Binary32.f32,
      Binary32.arctan_at_zero arctan -> Binary32.arctan_near_4 arctan ->
      exists slope1 classes1 slope2 classes2 s1,
        @compute_slope_and_classes _ (Binary32.ops arctan) (Binary32.int_ramp 1)
          = Ok (slope1, classes1) /\
        @compute_slope_and_classes _ (Binary32.ops arctan) (Binary32.int_ramp 2)
          = Ok (slope2, classes2) /\
        cell false (@nodata_mask _ (Binary32.ops arctan) (Binary32.int_ramp 1)) 1 4 = false /\
        cell false (@nodata_mask _ (Binary32.ops arctan) (Binary32.int_ramp 2)) 1 4 = false /\
        lookup slope1 1 4 = Some s1 /\
        lookup slope2 1 4 = Some (Binary32.f32_of_Z 0) /\
        SFltb (Binary32.f32_of_Z 0) s1 = true /\
        lookup classes1 1 4 = Some 4 /\
        lookup classes2 1 4 = Some 0) /\
  (exists slope1 classes1 slope2 classes2 (s1 s2 : R),
      compute_slope_and_classes
        (Exact.finite_raster 3 3 (Exact.ramp 0 1 0) None 1 (-10)) = Ok (slope1, classes1) /\
      compute_slope_and_classes
        (Exact.finite_raster 3 3 (Exact.ramp 0 0 2) None 1 (-10)) = Ok (slope2, classes2) /\
      lookup slope1 1 1 = Some (Exact.Fin s1) /\
      lookup slope2 1 1 = Some (Exact.Fin s2) /\
      (s2 < s1)%R).
Proof.
  split; [|split].
  - exists (fun x => match x with
                     | S754_zero _ => x
                     | _ => S754_finite false 11121765 (-23)
                     end).
    split; [reflexivity|].
    exists 11121765%positive. split; [simpl; auto | reflexivity].
  - intros arctan H0 (m & Hm & H4).
    destruct (@compute_cells _ (Binary32.ops arctan) (Binary32.int_ramp 1))
      as (slope1 & classes1 & H1 & Hcells1); [shape | shape |].
    destruct (@compute_cells _ (Binary32.ops arctan) (Binary32.int_ramp 2))
      as (slope2 & classes2 & H2 & Hcells2); [shape | shape |].
    assert (Hm1 : cell false (@nodata_mask _ (Binary32.ops arctan) (Binary32.int_ramp 1)) 1 4
                  = false) by reflexivity.
    assert (Hm2 : cell false (@nodata_mask _ (Binary32.ops arctan) (Binary32.int_ramp 2)) 1 4
                  = false) by reflexivity.
    destruct (Hcells1 1 4) as [Hs1 Hk1]; [shape | shape |].
    destruct (Hcells2 1 4) as [Hs2 Hk2]; [shape | shape |].
    rewrite Hm1 in Hs1, Hk1. rewrite Hm2 in Hs2, Hk2.
    assert (R1 : @raw_slope _ (Binary32.ops arctan) (Binary32.int_ramp 1) 1 4
                 = Binary32.rad2deg (S754_finite false m (-23))).
    { unfold raw_slope, slope_of_gradient.
      replace (fsqrt _) with (Binary32.f32_of_Z 4) by (vm_compute; reflexivity).
      cbn [farctan fdegrees Binary32.ops]. now rewrite H4. }
    assert (R2 : @raw_slope _ (Binary32.ops arctan) (Binary32.int_ramp 2) 1 4
                 = Binary32.f32_of_Z 0).
    { unfold raw_slope, slope_of_gradient.
      replace (fsqrt _) with (S754_zero false) by (vm_compute; reflexivity).
      cbn [farctan fdegrees Binary32.ops]. rewrite H0. vm_compute. reflexivity. }
    rewrite R1 in Hs1, Hk1. rewrite R2 in Hs2, Hk2.
    exists slope1, classes1, slope2, classes2,
           (Binary32.rad2deg (S754_finite false m (-23))).
    repeat (split; [assumption|]).
    simpl in Hm. rewrite Hk1, Hk2.
    destruct Hm as [<-|[<-|[<-|[]]]]; (split; [|split]); vm_compute; reflexivity.
  - set (src1 := Exact.finite_raster 3 3 (Exact.ramp 0 1 0) None 1 (-10)).
    set (src2 := Exact.finite_raster 3 3 (Exact.ramp 0 0 2) None 1 (-10)).
    destruct (compute_total src1) as [[slope1 classes1] H1]; [shape | shape |].
    destruct (compute_total src2) as [[slope2 classes2] H2]; [shape | shape |].
    exists slope1, classes1, slope2, classes2,
           (Exact.slope_degrees (1 / 1) (0 / 10)), (Exact.slope_degrees (0 / 1) (2 / 10)).
    split; [exact H1|]. split; [exact H2|].
    assert (Hy : forall src : Raster Exact.xfloat,
               transform_e src = Exact.Fin (-10) -> yres src = Exact.Fin 10).
    { intros src He. unfold yres. rewrite He. simpl. f_equal.
      unfold Rabs. destruct (Rcase_abs (-10)); lra. }
    split; [|split].
    + apply (ramp_cell src1 (b := 0%R) (classes := classes1));
        [ apply reads_as_finite_dem | now apply unit_xres | lra
        | now apply Hy | lra | shape | shape | reflexivity | exact H1 ].
    + apply (ramp_cell src2 (b := 0%R) (classes := classes2));
        [ apply reads_as_finite_dem | now apply unit_xres | lra
        | now apply Hy | lra | shape | shape | reflexivity | exact H2 ].
    + unfold Exact.slope_degrees.
      assert (Hpi := PI_RGT_0).
      apply Rmult_lt_compat_r; [apply Rdiv_lt_0_compat; lra|].
      apply atan_increasing. apply sqrt_lt_1; lra.
Qed.

(** C9: a NaN no-data value masks nothing.  With [nodata = NaN] the test
    [dem == nodata] is false at every cell, so every cell, a NaN one
    included, keeps its raw slope and the class of that slope; [np.isnan] is
    the mask only when the profile has no no-data value, and [dem == nodata]
    whenever it has one. *)
Theorem nan_sentinel_masks_nothing (src : Raster Exact.xfloat) (r c : nat) :
  r < nrows (band src) -> c < ncols (band src) ->
  (nodata src = Some Exact.NaN ->
   cell false (nodata_mask src) r c = false /\
   (2 <= nrows (band src) -> 2 <= ncols (band src) ->
    exists out, compute_slope_and_classes src = Ok out) /\
   forall slope classes,
     compute_slope_and_classes src = Ok (slope, classes) ->
     lookup slope r c = Some (raw_slope src r c) /\
     lookup classes r c = Some (uint8 (digitize (raw_slope src r c) bins))) /\
  (nodata src = None ->
   cell false (nodata_mask src) r c = Exact.xisnan (cell Exact.NaN (band src) r c)) /\
  (forall nd, nodata src = Some nd ->
   cell false (nodata_mask src) r c = Exact.xeqb (cell Exact.NaN (band src) r c) nd).
Proof.
  intros Hr Hc.
  assert (Hmask := cell_nodata_mask src Hr Hc).
  split; [|split].
  - intros Hnd. rewrite Hnd in Hmask.
    assert (Hm : cell false (nodata_mask src) r c = false).
    { rewrite Hmask. simpl. now destruct (cell Exact.NaN (band src) r c). }
    split; [exact Hm|]. split; [apply compute_total|].
    intros slope classes H.
    destruct (compute_inv src H) as (_ & _ & Hcells).
    destruct (Hcells r c Hr Hc) as [Hs Hk].
    rewrite Hm in Hs, Hk. split; assumption.
  - intros Hnd. now rewrite Hnd in Hmask.
  - intros nd Hnd. now rewrite Hnd in Hmask.
Qed.

Lemma nan_sentinel_masks_nothing_witness :
  cell false (nodata_mask Exact.nan_hole) 0 1 = false /\
  cell Exact.NaN (band Exact.nan_hole) 0 1 = Exact.NaN.
Proof.
  split; [|reflexivity].
  destruct (@nan_sentinel_masks_nothing Exact.nan_hole 0 1) as [Hnan _];
    [shape | shape |].
  destruct (Hnan eq_refl) as [Hm _]. exact Hm.
Defined.

(** C10: the mask is not applied to neighbourhoods.  The slope of a valid
    cell is its raw slope, computed from the stored elevations of its
    neighbours whether they are masked or not.  So two grids that differ only
    in the value stored at a masked cell get different slopes at a valid
    neighbour: with each grid's own no-data value stored at cell (0, 1)
    (masked in both, same mask), and also with one no-data value when the
    second grid stores another value there. *)
Theorem mask_spares_neighbours :
  (forall (F : Type) (ops : FloatOps F) (src : Raster F) r c slope classes,
      compute_slope_and_classes src = Ok (slope, classes) ->
      r < nrows (band src) -> c < ncols (band src) ->
      cell false (nodata_mask src) r c = false ->
      lookup slope r c = Some (raw_slope src r c)) /\
  (forall (nd1 v1 nd2 v2 : R) r c,
      (r, c) <> (0, 1) ->
      cell Exact.NaN (band (Exact.hole nd1 v1)) r c =
      cell Exact.NaN (band (Exact.hole nd2 v2)) r c) /\
  (let src1 := Exact.hole (-9999) (-9999) in
   let src2 := Exact.hole (-5000) (-5000) in
   cell false (nodata_mask src1) 0 1 = true /\
   cell false (nodata_mask src2) 0 1 = true /\
   cell false (nodata_mask src1) 0 0 = false /\
   cell false (nodata_mask src2) 0 0 = false /\
   exists slope1 classes1 slope2 classes2 (s1 s2 : R),
     compute_slope_and_classes src1 = Ok (slope1, classes1) /\
     compute_slope_and_classes src2 = Ok (slope2, classes2) /\
     lookup slope1 0 0 = Some (Exact.Fin s1) /\
     lookup slope2 0 0 = Some (Exact.Fin s2) /\
     s1 <> s2) /\
  (let src1 := Exact.hole (-9999) (-9999) in
   let src2 := Exact.hole (-9999) 7 in
   cell false (nodata_mask src1) 0 1 = true /\
   cell false (nodata_mask src1) 0 0 = false /\
   cell false (nodata_mask src2) 0 0 = false /\
   exists slope1 classes1 slope2 classes2 (s1 s2 : R),
     compute_slope_and_classes src1 = Ok (slope1, classes1) /\
     compute_slope_and_classes src2 = Ok (slope2, classes2) /\
     lookup slope1 0 0 = Some (Exact.Fin s1) /\
     lookup slope2 0 0 = Some (Exact.Fin s2) /\
     s1 <> s2).
Proof.
  assert (Hne : forall nd : R, nd <> 0%R ->
                Exact.xeqb (Exact.Fin 0) (Exact.Fin nd) = false).
  { intros nd Hnd. simpl. destruct (Req_dec_T 0 nd); [congruence|reflexivity]. }
  assert (Hpair : forall nd1 v1 nd2 v2 : R,
             nd1 <> 0%R -> nd2 <> 0%R -> (v2 * v2 < v1 * v1)%R ->
             exists slope1 classes1 slope2 classes2 (s1 s2 : R),
               compute_slope_and_classes (Exact.hole nd1 v1) = Ok (slope1, classes1) /\
               compute_slope_and_classes (Exact.hole nd2 v2) = Ok (slope2, classes2) /\
               lookup slope1 0 0 = Some (Exact.Fin s1) /\
               lookup slope2 0 0 = Some (Exact.Fin s2) /\
               s1 <> s2).
  { intros nd1 v1 nd2 v2 Hnd1 Hnd2 Hlt.
    destruct (compute_total (Exact.hole nd1 v1)) as [[slope1 classes1] H1];
      [shape | shape |].
    destruct (compute_total (Exact.hole nd2 v2)) as [[slope2 classes2] H2];
      [shape | shape |].
    exists slope1, classes1, slope2, classes2,
      (Exact.slope_degrees v1 0), (Exact.slope_degrees v2 0).
    split; [exact H1|]. split; [exact H2|].
    split; [exact (hole_cell Hnd1 H1)|]. split; [exact (hole_cell Hnd2 H2)|].
    assert (Hs : (Exact.slope_degrees v2 0 < Exact.slope_degrees v1 0)%R)
      by (apply slope_degrees_lt; lra).
    lra. }
  split; [|split; [|split]].
  - intros F ops src r c slope classes H Hr Hc Hm.
    destruct (compute_inv src H) as (_ & _ & Hcells).
    destruct (Hcells r c Hr Hc) as [Hs _]. now rewrite Hm in Hs.
  - intros nd1 v1 nd2 v2 r c Hrc.
    destruct r as [|[|r]]; destruct c as [|[|c]];
      try reflexivity; try congruence;
      unfold cell; simpl; try destruct r; try destruct c; reflexivity.
  - cbv zeta. split; [apply xeqb_refl|]. split; [apply xeqb_refl|].
    split; [apply Hne; lra|]. split; [apply Hne; lra|].
    apply Hpair; lra.
  - cbv zeta. split; [apply xeqb_refl|].
    split; [apply Hne; lra|]. split; [apply Hne; lra|].
    apply Hpair; lra.
Qed.

(** * Further properties *)

(** X1: shape preservation.  Whatever the float arithmetic, the two rasters
    that the kernel returns have the row and column counts of the DEM. *)
Theorem shape_preserved {F : Type} {ops : FloatOps F} (src : Raster F) slope classes :
  compute_slope_and_classes src = Ok (slope, classes) ->
  nrows slope = nrows (band src) /\ ncols slope = ncols (band src) /\
  nrows classes = nrows (band src) /\ ncols classes = ncols (band src).
Proof.
  intros H. destruct (compute_inv src H) as (Hr & Hc & _).
  unfold compute_slope_and_classes in H.
  rewrite gradient_ok in H by assumption.
  injection H as <- <-.
  unfold set_where, elementwise2, elementwise.
  repeat rewrite ?nrows_tabulate, ?ncols_tabulate by lia.
  repeat split; reflexivity.
Qed.

Lemma shape_preserved_witness :
  exists slope classes,
    compute_slope_and_classes Exact.plateau = Ok (slope, classes) /\
    nrows slope = 3 /\ ncols slope = 3 /\ nrows classes = 3 /\ ncols classes = 3.
Proof.
  destruct (compute_total Exact.plateau) as [[slope classes] H]; [shape | shape |].
  exists slope, classes. split; [exact H|].
  exact (shape_preserved Exact.plateau H).
Defined.

(** X2: a NaN slope is class 4.  A valid cell whose slope is NaN (a NaN
    elevation that the mask misses is enough, as at cell (0, 0) of
    [nan_hole]) falls in no bin, and [np.digitize] files it under the last
    class. *)
Theorem nan_slope_is_class_4 :
  (forall (src : Raster Exact.xfloat) r c slope classes,
      compute_slope_and_classes src = Ok (slope, classes) ->
      r < nrows (band src) -> c < ncols (band src) ->
      cell false (nodata_mask src) r c = false ->
      lookup slope r c = Some Exact.NaN ->
      lookup classes r c = Some 4) /\
  (exists slope classes,
      compute_slope_and_classes Exact.nan_hole = Ok (slope, classes) /\
      cell false (nodata_mask Exact.nan_hole) 0 0 = false /\
      lookup slope 0 0 = Some Exact.NaN /\
      lookup classes 0 0 = Some 4).
Proof.
  split.
  - intros src r c slope classes H Hr Hc Hm Hs.
    destruct (compute_inv src H) as (_ & _ & Hcells).
    destruct (Hcells r c Hr Hc) as [Hs' Hk].
    rewrite Hm in Hs', Hk.
    assert (Hn : raw_slope src r c = Exact.NaN) by congruence.
    rewrite Hk, Hn. reflexivity.
  - destruct (compute_cells Exact.nan_hole) as (slope & classes & H & Hcells);
      [shape | shape |].
    exists slope, classes. split; [exact H|]. split; [reflexivity|].
    destruct (Hcells 0 0) as [Hs Hk]; [shape | shape |].
    split; [rewrite Hs | rewrite Hk]; reflexivity.
Qed.

(** ** Counting cells *)

Section CountFacts.

Lemma list_sum_map_ext {A} (f g : A -> nat) l :
  (forall x, In x l -> f x = g x) ->
  list_sum (map f l) = list_sum (map g l).
Proof.
  induction l as [|x l IH]; intros H; [reflexivity|]. simpl.
  rewrite (H x) by (now left). rewrite IH; [reflexivity|].
  intros y Hy. apply H. now right.
Qed.

Lemma list_sum_map_le {A} (f g : A -> nat) l :
  (forall x, In x l -> f x <= g x) ->
  list_sum (map f l) <= list_sum (map g l).
Proof.
  induction l as [|x l IH]; intros H; [reflexivity|]. simpl.
  apply Nat.add_le_mono; [apply H; now left|].
  apply IH. intros y Hy. apply H. now right.
Qed.

Lemma list_sum_map_add {A} (f g : A -> nat) l :
  list_sum (map (fun x => f x + g x) l) = list_sum (map f l) + list_sum (map g l).
Proof. induction l as [|x l IH]; simpl; lia. Qed.

Lemma list_sum_map_const {A} (l : list A) k :
  list_sum (map (fun _ => k) l) = length l * k.
Proof. induction l as [|x l IH]; simpl; lia. Qed.

Lemma dsum_ext nr nc f g :
  (forall r c, r < nr -> c < nc -> f r c = g r c) -> dsum nr nc f = dsum nr nc g.
Proof.
  intros H. unfold dsum. apply list_sum_map_ext. intros r Hr.
  apply list_sum_map_ext. intros c Hc.
  apply in_seq in Hr, Hc. apply H; lia.
Qed.

Lemma dsum_le nr nc f g :
  (forall r c, r < nr -> c < nc -> f r c <= g r c) -> dsum nr nc f <= dsum nr nc g.
Proof.
  intros H. unfold dsum. apply list_sum_map_le. intros r Hr.
  apply list_sum_map_le. intros c Hc.
  apply in_seq in Hr, Hc. apply H; lia.
Qed.

Lemma dsum_add nr nc f g :
  dsum nr nc (fun r c => f r c + g r c) = dsum nr nc f + dsum nr nc g.
Proof.
  unfold dsum. rewrite <- list_sum_map_add. apply list_sum_map_ext.
  intros r _. apply list_sum_map_add.
Qed.

Lemma dsum_one nr nc : dsum nr nc (fun _ _ => 1) = nr * nc.
Proof.
  unfold dsum.
  rewrite (list_sum_map_ext _ (fun _ => nc)).
  - rewrite list_sum_map_const, length_seq. reflexivity.
  - intros r _. rewrite list_sum_map_const, length_seq. lia.
Qed.

Lemma count_row (p : nat -> bool) lc :
  length (filter (fun b => b) (map p lc)) = list_sum (map (fun c => Nat.b2n (p c)) lc).
Proof.
  induction lc as [|c lc IH]; [reflexivity|].
  simpl. destruct (p c); simpl; rewrite IH; reflexivity.
Qed.

Lemma count_true_tabulate nr nc (b : nat -> nat -> bool) :
  count_true (tabulate nr nc b) = dsum nr nc (fun r c => Nat.b2n (b r c)).
Proof.
  unfold count_true, tabulate, dsum.
  induction (seq 0 nr) as [|r lr IH]; [reflexivity|].
  simpl. rewrite filter_app, length_app, IH, count_row. reflexivity.
Qed.

Lemma size_tabulate {A} nr nc (f : nat -> nat -> A) :
  length (concat (tabulate nr nc f)) = nr * nc.
Proof.
  unfold tabulate.
  assert (H : forall lr : list nat,
             length (concat (map (fun r => map (fun c => f r c) (seq 0 nc)) lr))
             = length lr * nc).
  { induction lr as [|r lr IH]; [reflexivity|].
    simpl. rewrite length_app, length_map, length_seq, IH. reflexivity. }
  rewrite H, length_seq. reflexivity.
Qed.

End CountFacts.

(** ** The rasters as tables, and the run's report *)

Section ReportFacts.
Context {F : Type} {ops : FloatOps F}.

Lemma lookup_tabulate_inv {A} nr nc (f : nat -> nat -> A) r c x :
  lookup (tabulate nr nc f) r c = Some x -> r < nr /\ c < nc /\ x = f r c.
Proof.
  unfold lookup, tabulate. rewrite nth_error_map, nth_error_seq.
  destruct (Nat.ltb_spec r nr) as [Hr|Hr]; [|discriminate]. simpl.
  rewrite nth_error_map, nth_error_seq.
  destruct (Nat.ltb_spec c nc) as [Hc|Hc]; [|discriminate]. simpl.
  intros H. injection H as <-. auto.
Qed.

(** The two rasters are tables over the shape of the DEM. *)
Lemma compute_form (src : Raster F) slope classes :
  compute_slope_and_classes src = Ok (slope, classes) ->
  2 <= nrows (band src) /\ 2 <= ncols (band src) /\
  exists S K,
    slope = tabulate (nrows (band src)) (ncols (band src)) S /\
    classes = tabulate (nrows (band src)) (ncols (band src)) K /\
    forall r c, r < nrows (band src) -> c < ncols (band src) ->
      S r c = (if cell false (nodata_mask src) r c then fnan
               else raw_slope src r c) /\
      K r c = (if cell false (nodata_mask src) r c then 0
               else uint8 (digitize (raw_slope src r c) bins)).
Proof.
  intros H. destruct (compute_inv src H) as (Hr & Hc & _).
  split; [exact Hr|]. split; [exact Hc|].
  unfold compute_slope_and_classes in H.
  rewrite gradient_ok in H by assumption.
  injection H as <- <-.
  unfold set_where, elementwise2, elementwise.
  repeat rewrite ?nrows_tabulate, ?ncols_tabulate by lia.
  eexists; eexists. split; [reflexivity|]. split; [reflexivity|].
  intros r c Hr' Hc'. cbv beta.
  repeat rewrite ?cell_tabulate by assumption. unfold raw_slope.
  destruct (cell false (nodata_mask src) r c); split; reflexivity.
Qed.

Lemma digitize_le (x : F) bs : digitize x bs <= length bs.
Proof.
  induction bs as [|b bs IH]; simpl; [lia|].
  destruct (fltb x b); lia.
Qed.

Lemma class_le_4 (x : F) : uint8 (digitize x bins) <= 4.
Proof.
  assert (H := digitize_le x bins). unfold bins in H at 2. simpl length in H.
  unfold uint8. rewrite Nat.mod_small by lia. exact H.
Qed.

Lemma nodata_mask_form (src : Raster F) :
  exists M,
    nodata_mask src = tabulate (nrows (band src)) (ncols (band src)) M /\
    forall r c, r < nrows (band src) -> c < ncols (band src) ->
      M r c = cell false (nodata_mask src) r c.
Proof.
  unfold nodata_mask, elementwise. destruct (nodata src);
    (eexists; split; [reflexivity|]; intros r c Hr Hc;
     now rewrite cell_tabulate).
Qed.

End ReportFacts.

(** X3: the class raster holds the values 0 to 4 only.  The source comment
    on [np.digitize] lists 0 to 5, but with four thresholds the largest
    index is 4, and the cast to uint8 never wraps. *)
Theorem classes_at_most_4 {F : Type} {ops : FloatOps F} (src : Raster F) slope classes :
  compute_slope_and_classes src = Ok (slope, classes) ->
  (forall r c, r < nrows (band src) -> c < ncols (band src) ->
     exists k, lookup classes r c = Some k /\ k <= 4) /\
  (forall r c k, lookup classes r c = Some k -> k <= 4).
Proof.
  intros H.
  destruct (compute_form src H) as (Hr & Hc & S & K & _ & -> & Hcells).
  assert (HK : forall r c, r < nrows (band src) -> c < ncols (band src) -> K r c <= 4).
  { intros r c Hr' Hc'. destruct (Hcells r c Hr' Hc') as [_ ->].
    destruct (cell false (nodata_mask src) r c); [lia | apply class_le_4]. }
  split.
  - intros r c Hr' Hc'. exists (K r c).
    split; [now apply lookup_tabulate | now apply HK].
  - intros r c k Hk. apply lookup_tabulate_inv in Hk.
    destruct Hk as (Hr' & Hc' & ->). now apply HK.
Qed.

Lemma classes_at_most_4_witness :
  exists slope classes,
    compute_slope_and_classes Exact.plateau = Ok (slope, classes) /\
    forall r c k, lookup classes r c = Some k -> k <= 4.
Proof.
  destruct (compute_total Exact.plateau) as [[slope classes] H]; [shape | shape |].
  exists slope, classes. split; [exact H|].
  exact (proj2 (classes_at_most_4 Exact.plateau H)).
Defined.

Section DistributionFacts.
Context {F : Type} {ops : FloatOps F}.

Lemma eqb_partition k :
  k <= 4 ->
  Nat.b2n (k =? 0) + (Nat.b2n (k =? 1) + (Nat.b2n (k =? 2) +
    (Nat.b2n (k =? 3) + Nat.b2n (k =? 4)))) = 1.
Proof.
  intros H. destruct k as [|[|[|[|[|k]]]]]; try reflexivity. lia.
Qed.

Lemma class_count_tabulate nr nc (K : nat -> nat -> nat) i :
  0 < nr ->
  class_count (tabulate nr nc K) i = dsum nr nc (fun r c => Nat.b2n (K r c =? i)).
Proof.
  intros Hnr. unfold class_count, elementwise.
  rewrite nrows_tabulate, ncols_tabulate by exact Hnr.
  rewrite count_true_tabulate. apply dsum_ext.
  intros r c Hr Hc. now rewrite cell_tabulate.
Qed.

End DistributionFacts.

(** X4: the class distribution counts every pixel.  The five counts
    [np.sum(classes == i)] add up to the number of pixels of the DEM, which
    is the number of valid pixels plus the number of no-data pixels; and
    every no-data pixel is counted in class 0. *)
Theorem class_distribution_counts_all_pixels {F : Type} {ops : FloatOps F}
        (src : Raster F) slope classes :
  compute_slope_and_classes src = Ok (slope, classes) ->
  list_sum (class_distribution classes) = mask_size src /\
  mask_size src = nrows (band src) * ncols (band src) /\
  mask_size src = valid_pixels src + nodata_pixels src /\
  nodata_pixels src <= class_count classes 0.
Proof.
  intros H.
  destruct (compute_form src H) as (Hr & Hc & S & K & _ & -> & Hcells).
  destruct (nodata_mask_form src) as (M & HM & HMcells).
  set (nr := nrows (band src)) in *. set (nc := ncols (band src)) in *.
  assert (Hsize : mask_size src = nr * nc)
    by (unfold mask_size; rewrite HM; apply size_tabulate).
  assert (Hnodata : nodata_pixels src = dsum nr nc (fun r c => Nat.b2n (M r c)))
    by (unfold nodata_pixels; rewrite HM; apply count_true_tabulate).
  assert (Hvalid : valid_pixels src = dsum nr nc (fun r c => Nat.b2n (negb (M r c)))).
  { unfold valid_pixels, elementwise. rewrite HM.
    rewrite nrows_tabulate, ncols_tabulate by lia.
    rewrite count_true_tabulate. apply dsum_ext.
    intros r c Hr' Hc'. now rewrite cell_tabulate. }
  repeat split.
  - rewrite Hsize. unfold class_distribution, n_classes. simpl.
    rewrite !class_count_tabulate by lia.
    rewrite Nat.add_0_r, <- !dsum_add, <- (dsum_one nr nc). apply dsum_ext.
    intros r c Hr' Hc'.
    assert (HK : K r c <= 4).
    { destruct (Hcells r c Hr' Hc') as [_ ->].
      destruct (cell false (nodata_mask src) r c); [lia | apply class_le_4]. }
    exact (eqb_partition HK).
  - exact Hsize.
  - rewrite Hsize, Hvalid, Hnodata, <- dsum_add, <- (dsum_one nr nc).
    apply dsum_ext. intros r c _ _. now destruct (M r c).
  - rewrite Hnodata, class_count_tabulate by lia. apply dsum_le.
    intros r c Hr' Hc'. destruct (Hcells r c Hr' Hc') as [_ ->].
    rewrite <- (HMcells r c Hr' Hc'). destruct (M r c); simpl; lia.
Qed.

Lemma class_distribution_counts_all_pixels_witness :
  exists slope classes,
    compute_slope_and_classes (Exact.hole (-9999) (-9999)) = Ok (slope, classes) /\
    list_sum (class_distribution classes) = mask_size (Exact.hole (-9999) (-9999)) /\
    nodata_pixels (Exact.hole (-9999) (-9999)) <= class_count classes 0.
Proof.
  destruct (@compute_total _ Exact.ops (Exact.hole (-9999) (-9999))) as [[s k] H];
    [shape | shape |].
  exists s, k. split; [exact H|].
  destruct (class_distribution_counts_all_pixels (Exact.hole (-9999) (-9999)) H)
    as (H1 & _ & _ & H4).
  split; assumption.
Defined.

Section PercentageFacts.
Import Exact.
Local Open Scope R_scope.

Lemma percentage_Fin count valid :
  (0 < valid)%nat ->
  percentage count valid = Fin (100 * INR count / INR valid).
Proof.
  intros Hv. unfold percentage. cbn [fdiv of_Z ops xdiv].
  rewrite Rzerob_false.
  - rewrite mult_IZR, <- !INR_IZR_INZ. reflexivity.
  - rewrite <- INR_IZR_INZ. apply not_0_INR. lia.
Qed.

Lemma sum_percentages (l : list nat) valid :
  fold_right Rplus 0 (map (fun n => 100 * INR n / INR valid) l)
  = 100 * INR (list_sum l) / INR valid.
Proof.
  induction l as [|n l IH]; simpl fold_right; simpl list_sum.
  - simpl INR. unfold Rdiv. ring.
  - rewrite IH, plus_INR. unfold Rdiv. ring.
Qed.

End PercentageFacts.

(** X5: the printed percentages are taken over the valid pixels only, while
    the counts cover every pixel.  In exact arithmetic, when some pixel is
    valid, the five percentages add up to [100 * size / valid]: exactly 100
    without no-data pixels, more than 100 as soon as one pixel is masked. *)
Theorem percentages_exceed_100 (src : Raster Exact.xfloat) slope classes :
  compute_slope_and_classes src = Ok (slope, classes) ->
  0 < valid_pixels src ->
  exists ps : list R,
    map (fun n => percentage n (valid_pixels src)) (class_distribution classes)
      = map Exact.Fin ps /\
    (fold_right Rplus 0%R ps
     = 100 * INR (mask_size src) / INR (valid_pixels src))%R /\
    (nodata_pixels src = 0 -> fold_right Rplus 0%R ps = 100%R) /\
    (0 < nodata_pixels src -> (100 < fold_right Rplus 0%R ps)%R).
Proof.
  intros H Hv.
  destruct (class_distribution_counts_all_pixels src H) as (Hsum & _ & Hsize & _).
  exists (map (fun n => 100 * INR n / INR (valid_pixels src))%R
              (class_distribution classes)).
  assert (Hv' : (0 < INR (valid_pixels src))%R) by (apply lt_0_INR; exact Hv).
  split; [|split; [|split]].
  - rewrite map_map. apply map_ext. intros n. now apply percentage_Fin.
  - rewrite sum_percentages, Hsum. reflexivity.
  - intros H0. rewrite sum_percentages, Hsum, Hsize, H0, Nat.add_0_r.
    field. lra.
  - intros Hn. rewrite sum_percentages, Hsum, Hsize, plus_INR.
    assert (Hn' : (0 < INR (nodata_pixels src))%R) by (apply lt_0_INR; exact Hn).
    apply (Rmult_lt_reg_r (INR (valid_pixels src))); [exact Hv'|].
    unfold Rdiv. rewrite Rmult_assoc, Rinv_l by lra. lra.
Qed.

Lemma percentages_exceed_100_witness :
  exists slope classes (ps : list R),
    compute_slope_and_classes (Exact.hole (-9999) (-9999)) = Ok (slope, classes) /\
    map (fun n => percentage n (valid_pixels (Exact.hole (-9999) (-9999))))
        (class_distribution classes) = map Exact.Fin ps /\
    (100 < fold_right Rplus 0%R ps)%R.
Proof.
  set (src := Exact.hole (-9999) (-9999)).
  assert (Hne : forall nd : R, nd <> 0%R ->
                Exact.xeqb (Exact.Fin 0) (Exact.Fin nd) = false).
  { intros nd Hnd. simpl. destruct (Req_dec_T 0 nd); [congruence|reflexivity]. }
  assert (Hvalid : valid_pixels src = 3).
  { unfold valid_pixels, count_true, src. cbn -[Exact.xeqb].
    rewrite xeqb_refl, !Hne by lra. reflexivity. }
  assert (Hnodata : nodata_pixels src = 1).
  { unfold nodata_pixels, count_true, src. cbn -[Exact.xeqb].
    rewrite xeqb_refl, !Hne by lra. reflexivity. }
  destruct (@compute_total _ Exact.ops src) as [[s k] H]; [shape | shape |].
  destruct (percentages_exceed_100 src H) as (ps & Hps & _ & _ & Hgt);
    [rewrite Hvalid; lia|].
  exists s, k, ps. split; [exact H|]. split; [exact Hps|].
  apply Hgt. rewrite Hnodata. lia.
Defined.

Section ZeroSpacing.
Import Exact.
Local Open Scope R_scope.

Lemma Rzerob_0 : Rzerob 0 = true.
Proof. unfold Rzerob. destruct (Req_dec_T 0 0); [reflexivity|contradiction]. Qed.

Lemma Rnegb_0 : Rnegb 0 = false.
Proof. apply Rnegb_false. lra. Qed.

Lemma xdiv_by_zero a :
  xdiv a (Fin 0) = NaN \/ xdiv a (Fin 0) = PInf \/ xdiv a (Fin 0) = NInf.
Proof.
  destruct a as [x| | |]; simpl; rewrite ?Rzerob_0, ?Rnegb_0; simpl; auto.
  destruct (Rzerob x); [auto|]. destruct (Rposb x); simpl; auto.
Qed.

Lemma diff1_by_zero n (at_ : nat -> xfloat) i :
  diff1 n (Fin 0) at_ i = NaN \/ diff1 n (Fin 0) at_ i = PInf \/
  diff1 n (Fin 0) at_ i = NInf.
Proof.
  unfold diff1. destruct (i =? 0)%nat; [apply xdiv_by_zero|].
  destruct (i =? n - 1)%nat; [apply xdiv_by_zero|].
  cbn [fmul of_Z ops xmul]. rewrite Rmult_0_r. apply xdiv_by_zero.
Qed.

Lemma xmul_square v :
  (exists x, xmul v v = Fin x) \/ xmul v v = PInf \/ xmul v v = NaN.
Proof. destruct v; simpl; eauto. Qed.

Lemma right_angle : PI / 2 * (180 / PI) = 90.
Proof. assert (H := PI_RGT_0). field. lra. Qed.

(** The slope when one of the two partial derivatives is not finite. *)
Lemma slope_of_unbounded_gradient g h :
  g = NaN \/ g = PInf \/ g = NInf ->
  (slope_of_gradient g h = NaN \/ slope_of_gradient g h = Fin 90) /\
  (slope_of_gradient h g = NaN \/ slope_of_gradient h g = Fin 90).
Proof.
  intros Hg. unfold slope_of_gradient. cbn [fmul fadd fsqrt farctan fdegrees ops].
  assert (Hgg : xmul g g = NaN \/ xmul g g = PInf)
    by (destruct Hg as [->|[->| ->]]; simpl; auto).
  destruct (xmul_square h) as [[x ->]|[->| ->]];
    destruct Hgg as [-> | ->]; simpl; rewrite ?right_angle; auto.
Qed.

Lemma digitize_NaN : uint8 (digitize NaN bins) = 4%nat.
Proof. reflexivity. Qed.

End ZeroSpacing.

(** X6: a zero pixel size makes every valid pixel "very steep".  When the x
    or the y pixel size of the transform is 0, the division by the spacing
    yields an infinite or NaN derivative whatever the elevations are, so in
    exact arithmetic the slope of every valid cell is 90 or NaN and its class
    is 4; no error is raised. *)
Theorem zero_pixel_size_is_class_4 (src : Raster Exact.xfloat) (r c : nat) :
  transform_a src = Exact.Fin 0 \/ transform_e src = Exact.Fin 0 ->
  r < nrows (band src) -> c < ncols (band src) ->
  cell false (nodata_mask src) r c = false ->
  (2 <= nrows (band src) -> 2 <= ncols (band src) ->
   exists out, compute_slope_and_classes src = Ok out) /\
  (forall slope classes,
      compute_slope_and_classes src = Ok (slope, classes) ->
      (lookup slope r c = Some Exact.NaN \/
       lookup slope r c = Some (Exact.Fin 90)) /\
      lookup classes r c = Some 4).
Proof.
  intros Hzero Hr Hc Hm. split; [apply compute_total|].
  intros slope classes H.
  destruct (compute_inv src H) as (_ & _ & Hcells).
  destruct (Hcells r c Hr Hc) as [Hs Hk]. rewrite Hm in Hs, Hk.
  assert (Hraw : raw_slope src r c = Exact.NaN \/ raw_slope src r c = Exact.Fin 90).
  { unfold raw_slope. destruct Hzero as [Ha|He].
    - refine (proj1 (@slope_of_unbounded_gradient _ _ _)).
      unfold gradient_axis1, xres. rewrite Ha. cbn [fabs Exact.ops Exact.xabs].
      rewrite Rabs_R0. apply diff1_by_zero.
    - refine (proj2 (@slope_of_unbounded_gradient _ _ _)).
      unfold gradient_axis0, yres. rewrite He. cbn [fabs Exact.ops Exact.xabs].
      rewrite Rabs_R0. apply diff1_by_zero. }
  rewrite Hs, Hk.
  destruct Hraw as [-> | ->].
  - split; [now left|]. now rewrite digitize_NaN.
  - split; [now right|]. rewrite steep_class by lra. reflexivity.
Qed.

Lemma zero_pixel_size_is_class_4_witness :
  exists slope classes,
    compute_slope_and_classes Exact.unspaced = Ok (slope, classes) /\
    lookup classes 1 1 = Some 4.
Proof.
  destruct (compute_total Exact.unspaced) as [[slope classes] H]; [shape | shape |].
  exists slope, classes. split; [exact H|].
  destruct (@zero_pixel_size_is_class_4 Exact.unspaced 1 1) as [_ Hz];
    [left; reflexivity | shape | shape | reflexivity |].
  exact (proj2 (Hz slope classes H)).
Defined.

Section Invariance.
Import Exact.
Local Open Scope R_scope.





End Invariance.



(** ** Reductions that ignore NaN *)

Section Reduce.
Import Exact.
Local Open Scope R_scope.

(** A selection [op] that ignores NaN and otherwise keeps the operand that
    is least for the order [le]. *)
Variable op : xfloat -> xfloat -> xfloat.
Variable le : R -> R -> Prop.
Hypothesis le_refl : forall x, le x x.
Hypothesis le_trans : forall x y z, le x y -> le y z -> le x z.
Hypothesis op_nan_l : forall v, op NaN v = v.
Hypothesis op_nan_r : forall a, op (Fin a) NaN = Fin a.
Hypothesis op_fin : forall a b,
    (op (Fin a) (Fin b) = Fin a /\ le a b) \/ (op (Fin a) (Fin b) = Fin b /\ le b a).


End Reduce.

Section RangeFacts.
Import Exact.
Local Open Scope R_scope.










End RangeFacts.



(** ** The run and its files *)

Section FileFacts.
Context {F : Type} {ops : FloatOps F}.
Variable fails : Paths.path -> bool.

(** The run writes what the kernel returns: nothing when the kernel raises,
    and the slope raster before the class raster is attempted. *)
Lemma run_refines_compute (src : Raster F) sp cp (d : disk) :
  run_compute_slope_and_classes fails (Holds src) sp cp d =
    match compute_slope_and_classes src with
    | Raise e => (Raise e, d)
    | Ok (slope, classes) =>
        if fails sp then (Raise RasterioIOError, d ++ [(sp, Incomplete)])
        else if fails cp
        then (Raise RasterioIOError,
              d ++ [(sp, SlopeRaster fnan slope); (cp, Incomplete)])
        else (Ok tt, d ++ [(sp, SlopeRaster fnan slope); (cp, ClassRaster 0 classes)])
    end.
Proof.
  unfold run_compute_slope_and_classes, compute_slope_and_classes, read, bind,
    lift, ret, write.
  destruct (gradient (band src) (yres src) (xres src)) as [[gy gx]|e];
    [|reflexivity].
  destruct (fails sp); [reflexivity|].
  destruct (fails cp); rewrite <- app_assoc; reflexivity.
Qed.

Lemma main_of_compute (src : Raster F) slope classes (d : disk) :
  compute_slope_and_classes src = Ok (slope, classes) ->
  main fails (Holds src) d =
    if fails Paths.slope_path
    then (Raise RasterioIOError, d ++ [(Paths.slope_path, Incomplete)])
    else if fails Paths.class_path
    then (Raise RasterioIOError,
          d ++ [(Paths.slope_path, SlopeRaster fnan slope);
                (Paths.class_path, Incomplete)])
    else (Ok 0, d ++ [(Paths.slope_path, SlopeRaster fnan slope);
                      (Paths.class_path, ClassRaster 0 classes)]).
Proof.
  intros H. unfold main, bind. rewrite run_refines_compute, H.
  destruct (fails Paths.slope_path); [reflexivity|].
  destruct (fails Paths.class_path); reflexivity.
Qed.

Lemma main_of_raise (src : Raster F) e (d : disk) :
  compute_slope_and_classes src = Raise e ->
  main fails (Holds src) d = (Raise e, d).
Proof.
  intros H. unfold main, bind. now rewrite run_refines_compute, H.
Qed.

End FileFacts.

(** An environment in which only the class raster cannot be written. *)
Lemma class_raster_may_fail :
  exists fails : Paths.path -> bool,
    fails Paths.slope_path = false /\ fails Paths.class_path = true.
Proof.
  exists (fun p => if list_eq_dec String.string_dec p Paths.class_path
                   then true else false).
  split.
  - destruct (list_eq_dec String.string_dec Paths.slope_path Paths.class_path)
      as [E|_]; [|reflexivity].
    apply (f_equal (fun p => map String.length p)) in E. vm_compute in E.
    discriminate.
  - destruct (list_eq_dec String.string_dec Paths.class_path Paths.class_path)
      as [_|N]; [reflexivity|]. now contradiction N.
Qed.

(** X9: what [main] returns and leaves on disk, whatever the DEM file and
    whichever output files cannot be written.  It returns 1 exactly when the
    DEM is missing, and 0 exactly when the DEM is read, has at least 2 rows
    and 2 columns and both outputs can be written; it returns no other code.
    When it returns 0 it has written exactly two files, the slope raster
    (no-data NaN) and then the class raster (no-data 0), which hold the
    rasters of the kernel.  A missing or unreadable DEM, and a DEM that
    [np.gradient] rejects, leave the disk untouched: the [ValueError] escapes
    before the first write.  A slope raster that cannot be written stops the
    run before the class raster is attempted.  And the run does not roll
    back: when only the class raster cannot be written, the error escapes
    and the complete slope raster stays on disk. *)
Theorem main_outcomes {F : Type} {ops : FloatOps F}
        (fails : Paths.path -> bool) (dem : dem_file) (d : disk) :
  let out := main fails dem d in
  (fst out = Ok 1 <-> dem = Missing) /\
  (fst out = Ok 0 <->
   exists src : Raster F,
     dem = Holds src /\ 2 <= nrows (band src) /\ 2 <= ncols (band src) /\
     fails Paths.slope_path = false /\ fails Paths.class_path = false) /\
  (forall n, fst out = Ok n -> n = 0 \/ n = 1) /\
  (fst out = Ok 0 ->
   exists src slope classes,
     dem = Holds src /\ compute_slope_and_classes src = Ok (slope, classes) /\
     snd out = d ++ [(Paths.slope_path, SlopeRaster fnan slope);
                     (Paths.class_path, ClassRaster 0 classes)]) /\
  (dem = Missing \/ dem = Unreadable \/ fst out = Raise ValueError -> snd out = d) /\
  (forall src : Raster F,
      dem = Holds src -> nrows (band src) < 2 \/ ncols (band src) < 2 ->
      out = (Raise ValueError, d)) /\
  (forall src : Raster F,
      dem = Holds src -> 2 <= nrows (band src) -> 2 <= ncols (band src) ->
      fails Paths.slope_path = true ->
      out = (Raise RasterioIOError, d ++ [(Paths.slope_path, Incomplete)])) /\
  (forall (src : Raster F) slope classes,
      dem = Holds src -> compute_slope_and_classes src = Ok (slope, classes) ->
      fails Paths.slope_path = false -> fails Paths.class_path = true ->
      out = (Raise RasterioIOError,
             d ++ [(Paths.slope_path, SlopeRaster fnan slope);
                   (Paths.class_path, Incomplete)])) /\
  (exists fails' : Paths.path -> bool,
      forall (src : Raster F) slope classes,
        compute_slope_and_classes src = Ok (slope, classes) ->
        main fails' (Holds src) d =
          (Raise RasterioIOError,
           d ++ [(Paths.slope_path, SlopeRaster fnan slope);
                 (Paths.class_path, Incomplete)])).
Proof.
  assert (Hcases :
    (dem = Missing /\ main fails dem d = (Ok 1, d)) \/
    (dem = Unreadable /\ main fails dem d = (Raise RasterioIOError, d)) \/
    (exists src, dem = Holds src /\
       (nrows (band src) < 2 \/ ncols (band src) < 2) /\
       compute_slope_and_classes src = Raise ValueError /\
       main fails dem d = (Raise ValueError, d)) \/
    (exists src slope classes, dem = Holds src /\
       2 <= nrows (band src) /\ 2 <= ncols (band src) /\
       compute_slope_and_classes src = Ok (slope, classes) /\
       main fails dem d =
         if fails Paths.slope_path
         then (Raise RasterioIOError, d ++ [(Paths.slope_path, Incomplete)])
         else if fails Paths.class_path
         then (Raise RasterioIOError,
               d ++ [(Paths.slope_path, SlopeRaster fnan slope);
                     (Paths.class_path, Incomplete)])
         else (Ok 0, d ++ [(Paths.slope_path, SlopeRaster fnan slope);
                           (Paths.class_path, ClassRaster 0 classes)]))).
  { destruct dem as [| |src].
    - left. now split.
    - right; left. now split.
    - right; right.
      destruct (le_lt_dec 2 (nrows (band src))) as [Hr|Hr];
        [destruct (le_lt_dec 2 (ncols (band src))) as [Hc|Hc]|].
      + right. destruct (compute_total src Hr Hc) as [[slope classes] H].
        exists src, slope, classes. repeat (split; [assumption || reflexivity|]).
        now apply main_of_compute.
      + left. exists src. assert (H := compute_raise src (or_intror Hc)).
        split; [reflexivity|]. split; [now right|]. split; [exact H|].
        now apply main_of_raise.
      + left. exists src. assert (H := compute_raise src (or_introl Hr)).
        split; [reflexivity|]. split; [now left|]. split; [exact H|].
        now apply main_of_raise. }
  assert (Hlast : exists fails' : Paths.path -> bool,
      forall (src : Raster F) slope classes,
        compute_slope_and_classes src = Ok (slope, classes) ->
        main fails' (Holds src) d =
          (Raise RasterioIOError,
           d ++ [(Paths.slope_path, SlopeRaster fnan slope);
                 (Paths.class_path, Incomplete)])).
  { destruct class_raster_may_fail as (f & Hs & Hk).
    exists f. intros src slope classes H.
    rewrite (main_of_compute f src d H), Hs, Hk. reflexivity. }
  cbv zeta.
  destruct Hcases as [[-> E]|[[-> E]|[(src & -> & Hsmall & Hc & E)
                     |(src & slope & classes & -> & Hr & Hc & H & E)]]];
    rewrite E; clear E;
    [ | | | destruct (fails Paths.slope_path) eqn:Hs;
            [|destruct (fails Paths.class_path) eqn:Hk] ];
    (split; [|split; [|split; [|split; [|split; [|split; [|split; [|split]]]]]]]);
    simpl; try exact Hlast; try (split; intros); intros; outcome.
  all: try (exists src; repeat (split; [assumption || reflexivity|]); assumption || reflexivity).
  all: try (exists src, slope, classes; repeat (split; [assumption || reflexivity|]); assumption || reflexivity).
Qed.

(** X10: the class raster cannot tell a flat pixel from a missing one.  In
    the class raster that a successful run writes, the no-data value of the
    profile is 0; every masked pixel holds it, and so does every valid pixel
    whose slope is below the first threshold. *)
Theorem flat_pixels_hold_the_nodata_value {F : Type} {ops : FloatOps F}
        (fails : Paths.path -> bool) (src : Raster F) (d d' : disk) (r c : nat) :
  main fails (Holds src) d = (Ok 0, d') ->
  r < nrows (band src) -> c < ncols (band src) ->
  exists slope classes nd,
    d' = d ++ [(Paths.slope_path, SlopeRaster fnan slope);
               (Paths.class_path, ClassRaster nd classes)] /\
    nd = 0 /\
    (cell false (nodata_mask src) r c = true -> lookup classes r c = Some nd) /\
    (cell false (nodata_mask src) r c = false ->
     forall s, lookup slope r c = Some s -> fltb s (of_Z 5) = true ->
               lookup classes r c = Some nd).
Proof.
  intros Hmain Hr Hc.
  destruct (compute_slope_and_classes src) as [[slope classes]|e] eqn:H;
    [|rewrite (main_of_raise fails src d H) in Hmain; discriminate].
  rewrite (main_of_compute fails src d H) in Hmain.
  destruct (fails Paths.slope_path); [discriminate|].
  destruct (fails Paths.class_path); [discriminate|].
  injection Hmain as <-.
  destruct (compute_inv src H) as (_ & _ & Hcells).
  destruct (Hcells r c Hr Hc) as [Hs Hk].
  exists slope, classes, 0. split; [reflexivity|]. split; [reflexivity|]. split.
  - intros Hm. now rewrite Hm in Hk.
  - intros Hm s Hlook Hflat. rewrite Hm in Hs, Hk.
    assert (Hraw : raw_slope src r c = s) by congruence.
    rewrite Hk, Hraw. unfold bins. simpl digitize. rewrite Hflat. reflexivity.
Qed.

Lemma flat_pixels_hold_the_nodata_value_witness :
  exists slope classes nd,
    main (fun _ => false) (Holds Exact.plateau) [] =
      (Ok 0, [(Paths.slope_path, SlopeRaster Exact.NaN slope);
              (Paths.class_path, ClassRaster nd classes)]) /\
    cell false (nodata_mask Exact.plateau) 0 0 = false /\
    lookup classes 0 0 = Some nd.
Proof.
  destruct (compute_total Exact.plateau) as [[slope classes] H]; [shape | shape |].
  assert (Hmain := main_of_compute (fun _ => false) Exact.plateau [] H).
  cbv beta iota in Hmain.
  destruct (@flat_pixels_hold_the_nodata_value _ Exact.ops (fun _ => false)
              Exact.plateau [] _ 0 0 Hmain)
    as (slope' & classes' & nd & Hd & _ & _ & Hflat); [shape | shape |].
  simpl app in Hd. injection Hd as Hs Hn Hk. subst slope' classes' nd.
  exists slope, classes, 0. split; [exact Hmain|].
  split; [reflexivity|].
  apply (Hflat eq_refl (Exact.Fin 0)).
  - exact (proj1 (plateau_corner H)).
  - apply xltb_Fin. lra.
Defined.

Section PathFacts.
Import String.
Local Open Scope string_scope.

Lemma string_length_append (s t : string) :
  String.length (s ++ t) = String.length s + String.length t.
Proof. induction s as [|ch s IH]; simpl; [reflexivity|]. now rewrite IH. Qed.

Lemma substring_prefix (s t : string) :
  substring 0 (String.length s) (s ++ t) = s.
Proof.
  induction s as [|ch s IH]; simpl.
  - destruct t; reflexivity.
  - now rewrite IH.
Qed.

Lemma string_length_substring (n : nat) (s : string) :
  String.length (substring 0 n s) = Nat.min n (String.length s).
Proof.
  revert n. induction s as [|ch s IH]; intros [|n]; simpl; try reflexivity.
  now rewrite IH.
Qed.

Lemma drop_last4_length (s : string) :
  String.length (Paths.drop_last4 s) = String.length s - 4.
Proof. unfold Paths.drop_last4. rewrite string_length_substring. lia. Qed.

Lemma drop_last4_extension (stem ext : string) :
  String.length ext = 4 -> Paths.drop_last4 (stem ++ ext) = stem.
Proof.
  intros H. unfold Paths.drop_last4.
  rewrite string_length_append, H, Nat.add_sub. apply substring_prefix.
Qed.

Lemma basename_joinpath (dir : Paths.path) (name : string) :
  Paths.basename (Paths.joinpath dir name) = name.
Proof. unfold Paths.basename, Paths.joinpath. apply last_last. Qed.

Lemma joinpath_inj (dir : Paths.path) (a b : string) :
  Paths.joinpath dir a = Paths.joinpath dir b -> a = b.
Proof.
  unfold Paths.joinpath. intros H. apply app_inv_head in H. congruence.
Qed.


(** X11: the output paths.  For a DEM [name] in the data directory, the two
    outputs are named after [name] without its last four characters; they
    differ from each other and from the DEM, so the run never overwrites its
    input, and for a name [stem.tif] they are [stem_slope_deg.tif] and
    [stem_slope_classes.tif]. *)
Theorem output_paths (dir : Paths.path) (name : String.string) :
  let dem := Paths.joinpath dir name in
  Paths.slope_path_of dir dem <> dem /\
  Paths.class_path_of dir dem <> dem /\
  Paths.slope_path_of dir dem <> Paths.class_path_of dir dem /\
  (forall stem ext : String.string,
      name = String.append stem ext -> String.length ext = 4 ->
      Paths.slope_path_of dir dem =
        Paths.joinpath dir (String.append stem "_slope_deg.tif") /\
      Paths.class_path_of dir dem =
        Paths.joinpath dir (String.append stem "_slope_classes.tif")) /\
  Paths.slope_path = ["data_out"; "DEME_Zone3_2021_clip_slope_deg.tif"] /\
  Paths.class_path = ["data_out"; "DEME_Zone3_2021_clip_slope_classes.tif"].
Proof.
  intros dem. unfold dem, Paths.slope_path_of, Paths.class_path_of.
  rewrite basename_joinpath.
  assert (Hlen := drop_last4_length name).
  repeat split.
  - intros H. apply joinpath_inj in H.
    apply (f_equal String.length) in H.
    rewrite string_length_append, Hlen in H. simpl in H. lia.
  - intros H. apply joinpath_inj in H.
    apply (f_equal String.length) in H.
    rewrite string_length_append, Hlen in H. simpl in H. lia.
  - intros H. apply joinpath_inj in H.
    apply (f_equal String.length) in H.
    rewrite !string_length_append in H. simpl in H. lia.
  - subst name. now rewrite drop_last4_extension.
  - subst name. now rewrite drop_last4_extension.
Qed.

End PathFacts.

(** ** Locality and symmetry of the kernel *)

Section Locality.
Context {F : Type} {ops : FloatOps F}.

Lemma diff1_local n dx (at1 at2 : nat -> F) i :
  2 <= n -> i < n ->
  (forall j, j < n -> j <= i + 1 -> i <= j + 1 -> at1 j = at2 j) ->
  diff1 n dx at1 i = diff1 n dx at2 i.
Proof.
  intros Hn Hi H. unfold diff1.
  destruct (Nat.eqb_spec i 0) as [->|H0].
  - rewrite !H by lia. reflexivity.
  - destruct (Nat.eqb_spec i (n - 1)) as [->|H1].
    + rewrite !H by lia. reflexivity.
    + rewrite !H by lia. reflexivity.
Qed.

End Locality.

(** X12: the kernel is local.  Whatever the float arithmetic, the slope and
    the class of cell (r, c) depend only on the no-data value, the two
    spacings, the shape, and the elevations of the cell and of its
    neighbours one step away along its row and its column: two rasters that
    agree there get the same output at (r, c). *)
Theorem slope_is_local {F : Type} {ops : FloatOps F} (src1 src2 : Raster F) (r c : nat) :
  nrows (band src2) = nrows (band src1) ->
  ncols (band src2) = ncols (band src1) ->
  nodata src2 = nodata src1 ->
  xres src2 = xres src1 -> yres src2 = yres src1 ->
  r < nrows (band src1) -> c < ncols (band src1) ->
  (forall i j, i < nrows (band src1) -> j < ncols (band src1) ->
     (i = r /\ j <= c + 1 /\ c <= j + 1) \/ (j = c /\ i <= r + 1 /\ r <= i + 1) ->
     cell fnan (band src2) i j = cell fnan (band src1) i j) ->
  forall slope1 classes1 slope2 classes2,
    compute_slope_and_classes src1 = Ok (slope1, classes1) ->
    compute_slope_and_classes src2 = Ok (slope2, classes2) ->
    lookup slope2 r c = lookup slope1 r c /\
    lookup classes2 r c = lookup classes1 r c.
Proof.
  intros Hnr Hnc Hnd Hx Hy Hr Hc Hagree slope1 classes1 slope2 classes2 H1 H2.
  destruct (compute_inv src1 H1) as (Hnr1 & Hnc1 & Hcells1).
  destruct (compute_inv src2 H2) as (_ & _ & Hcells2).
  destruct (Hcells1 r c Hr Hc) as [Hs1 Hk1].
  destruct (Hcells2 r c) as [Hs2 Hk2]; [lia | lia |].
  assert (Hmask : cell false (nodata_mask src2) r c = cell false (nodata_mask src1) r c).
  { rewrite !cell_nodata_mask by lia. rewrite Hnd, Hagree by (auto; left; lia).
    reflexivity. }
  assert (Hraw : raw_slope src2 r c = raw_slope src1 r c).
  { unfold raw_slope, gradient_axis1, gradient_axis0.
    rewrite Hx, Hy, Hnr, Hnc. f_equal.
    - apply diff1_local; [lia | lia |]. intros j Hj Hj1 Hj2.
      apply Hagree; [lia | lia |]. left. lia.
    - apply diff1_local; [lia | lia |]. intros i Hi Hi1 Hi2.
      apply Hagree; [lia | lia |]. right. lia. }
  rewrite Hs1, Hs2, Hk1, Hk2, Hmask, Hraw. split; reflexivity.
Qed.

Lemma slope_is_local_witness :
  exists slope1 classes1 slope2 classes2,
    compute_slope_and_classes
      (Exact.finite_raster 3 3 (Exact.ramp 0 1 1) None 1 (-1)) = Ok (slope1, classes1) /\
    compute_slope_and_classes
      (Exact.finite_raster 3 3
         (fun i j => if (i =? 2) && (j =? 2) then 99%R else Exact.ramp 0 1 1 i j)
         None 1 (-1)) = Ok (slope2, classes2) /\
    lookup slope2 0 0 = lookup slope1 0 0.
Proof.
  set (E2 := fun i j => if (i =? 2) && (j =? 2) then 99%R else Exact.ramp 0 1 1 i j).
  set (src1 := Exact.finite_raster 3 3 (Exact.ramp 0 1 1) None 1 (-1)).
  set (src2 := Exact.finite_raster 3 3 E2 None 1 (-1)).
  destruct (compute_total src1) as [[slope1 classes1] H1]; [shape | shape |].
  destruct (compute_total src2) as [[slope2 classes2] H2]; [shape | shape |].
  exists slope1, classes1, slope2, classes2.
  split; [exact H1|]. split; [exact H2|].
  refine (proj1 (@slope_is_local _ Exact.ops src1 src2 0 0 _ _ _ _ _ _ _ _
                   slope1 classes1 slope2 classes2 H1 H2));
    try reflexivity; try shape.
  intros i j Hi Hj Hnear.
  change (cell Exact.NaN (Exact.finite_dem 3 3 E2) i j
          = cell Exact.NaN (Exact.finite_dem 3 3 (Exact.ramp 0 1 1)) i j).
  unfold Exact.finite_dem.
  change (nrows (band src1)) with 3 in Hi. change (ncols (band src1)) with 3 in Hj.
  rewrite !cell_tabulate by assumption. unfold E2.
  destruct (Nat.eqb_spec i 2) as [->|_]; [|reflexivity].
  destruct (Nat.eqb_spec j 2) as [->|_]; [|reflexivity].
  exfalso. lia.
Defined.

Section Transposition.
Import Exact.
Local Open Scope R_scope.

Lemma slope_degrees_swap gx gy : slope_degrees gx gy = slope_degrees gy gx.
Proof. unfold slope_degrees. do 3 f_equal. ring. Qed.

End Transposition.

(** X13: the kernel treats both axes alike.  In exact arithmetic,
    transposing a grid of finite elevations and exchanging the two pixel
    sizes transposes the slope raster: cell (r, c) of the transposed run has
    the slope and the class of cell (c, r) of the original run, when both
    cells are valid. *)
Theorem slope_of_transposed_grid (src1 src2 : Raster Exact.xfloat)
        (E : nat -> nat -> R) (dx dy : R) (r c : nat) :
  Exact.reads_as (band src1) E ->
  Exact.reads_as (band src2) (fun i j => E j i) ->
  nrows (band src2) = ncols (band src1) ->
  ncols (band src2) = nrows (band src1) ->
  xres src1 = Exact.Fin dx -> yres src1 = Exact.Fin dy ->
  xres src2 = Exact.Fin dy -> yres src2 = Exact.Fin dx ->
  (0 < dx)%R -> (0 < dy)%R ->
  r < nrows (band src2) -> c < ncols (band src2) ->
  cell false (nodata_mask src1) c r = false ->
  cell false (nodata_mask src2) r c = false ->
  forall slope1 classes1 slope2 classes2,
    compute_slope_and_classes src1 = Ok (slope1, classes1) ->
    compute_slope_and_classes src2 = Ok (slope2, classes2) ->
    exists (s : R) (cls : nat),
      lookup slope1 c r = Some (Exact.Fin s) /\
      lookup slope2 r c = Some (Exact.Fin s) /\
      lookup classes1 c r = Some cls /\
      lookup classes2 r c = Some cls.
Proof.
  intros HE1 HE2 Hnr Hnc Hx1 Hy1 Hx2 Hy2 Hdx Hdy Hr Hc Hm1 Hm2
         slope1 classes1 slope2 classes2 H1 H2.
  assert (Hc1 : c < nrows (band src1)) by lia.
  assert (Hr1 : r < ncols (band src1)) by lia.
  destruct (valid_cell_exact src1 HE1 Hx1 Hdx Hy1 Hdy Hc1 Hr1 Hm1 H1) as [Hs1 Hk1].
  destruct (valid_cell_exact src2 HE2 Hx2 Hdy Hy2 Hdx Hr Hc Hm2 H2) as [Hs2 Hk2].
  rewrite Hnr, Hnc in Hs2, Hk2.
  rewrite slope_degrees_swap in Hs2, Hk2.
  eexists; eexists. repeat split; eassumption.
Qed.

Lemma slope_of_transposed_grid_witness :
  exists slope1 classes1 slope2 classes2 (s : R),
    compute_slope_and_classes
      (Exact.finite_raster 2 3 (Exact.ramp 0 1 5) None 1 (-2)) = Ok (slope1, classes1) /\
    compute_slope_and_classes
      (Exact.finite_raster 3 2 (fun i j => Exact.ramp 0 1 5 j i) None 2 (-1))
      = Ok (slope2, classes2) /\
    lookup slope1 1 2 = Some (Exact.Fin s) /\
    lookup slope2 2 1 = Some (Exact.Fin s).
Proof.
  set (src1 := Exact.finite_raster 2 3 (Exact.ramp 0 1 5) None 1 (-2)).
  set (src2 := Exact.finite_raster 3 2 (fun i j => Exact.ramp 0 1 5 j i) None 2 (-1)).
  assert (Habs2 : Rabs 2 = 2%R) by (unfold Rabs; destruct (Rcase_abs 2); lra).
  assert (Habsm2 : Rabs (-2) = 2%R) by (unfold Rabs; destruct (Rcase_abs (-2)); lra).
  destruct (compute_total src1) as [[slope1 classes1] H1]; [shape | shape |].
  destruct (compute_total src2) as [[slope2 classes2] H2]; [shape | shape |].
  destruct (@slope_of_transposed_grid src1 src2 (Exact.ramp 0 1 5) 1%R 2%R 2 1)
    with (slope1 := slope1) (classes1 := classes1)
         (slope2 := slope2) (classes2 := classes2)
    as (s & cls & Hs1 & Hs2 & _);
    try exact H1; try exact H2;
    [ apply reads_as_finite_dem | apply reads_as_finite_dem
    | reflexivity | reflexivity
    | now apply unit_xres
    | unfold yres, src1; simpl; now rewrite Habsm2
    | unfold xres, src2; simpl; now rewrite Habs2
    | now apply unit_yres
    | lra | lra | shape | shape | reflexivity | reflexivity | ].
  exists slope1, classes1, slope2, classes2, s. auto.
Defined.
